(** * POSIX IPC wrappers of [co]: a shallow embedding of [src/ipc/posix_ipc.cc]

    The file models the functions of namespace [ipc] (readiness probes,
    guarded read and write, [Pipe], [Fifo], [PosixMsgQueue], [NameSem], [Sem],
    [PosixShareMem]) as finite trees of system calls.  A program is a value of
    [prog A]: it returns, throws a C++ exception, runs into undefined
    behaviour (an access outside an [fd_set]), or issues one call and
    continues with the answer of the operating system.  The operating system
    is a parameter (a [Kernel]): theorems about the wrappers hold for every
    kernel; the behaviour of the POSIX counting semaphore is [posix_sem].

    C++ objects are records of their data members; a member function that
    mutates the object returns the new record.  Buffers are addresses: what
    the kernel stores through them belongs to its world.  The members that
    configure or inspect a handle ([set_fd_block], [set_block], [set_size],
    [notify], and [value], [sem_p], [sem_v] of [NameSem]) follow the
    classes, over a second alphabet of calls.  Not modelled:
    [PosixShareMem::map] and the destructors (each is the [close] or
    [unmap] of its class). *)

From Stdlib Require Import ZArith List String Ascii Bool Lia.
Import ListNotations.
Local Open Scope Z_scope.

(** ** Machine integers

    [int] is 32 bits, [time_t], [ssize_t] and [long] are 64 bits signed,
    [size_t] is 64 bits unsigned (LP64).  Values are kept in [Z]; a
    conversion to [int] wraps around. *)

Definition INT_MIN : Z := - 2 ^ 31.
Definition INT_MAX : Z := 2 ^ 31 - 1.

(** Conversion of a wider integer to [int] (two's complement wrap-around). *)
Definition to_int (z : Z) : Z := (z + 2 ^ 31) mod 2 ^ 32 - 2 ^ 31.

Definition in_int (z : Z) : Prop := INT_MIN <= z <= INT_MAX.

(** A user-space address (the [void*] buffers handed to the kernel). *)
Definition ptr := Z.
Definition nullptr : ptr := 0.

(** ** Constants of the system headers

    [<fcntl.h>], [<unistd.h>] and [<semaphore.h>] are not part of the
    repository: their constants are parameters of the development. *)

Class Platform : Type := {
  O_RDONLY : Z;
  O_WRONLY : Z;
  O_RDWR : Z;
  O_CREAT : Z;
  O_TRUNC : Z;
  O_APPEND : Z;
  O_EXCL : Z;
  (** the [sysconf] selector of [<unistd.h>], used by the source as a
      message priority *)
  _SC_MQ_PRIO_MAX : Z;
  (** the failure value of [sem_open] *)
  SEM_FAILED : ptr
}.

(** The values of Linux with glibc on x86-64 ([bits/fcntl-linux.h],
    [bits/confname.h], [semaphore.h]). *)
Definition linux_glibc : Platform := {|
  O_RDONLY := 0;
  O_WRONLY := 1;
  O_RDWR := 2;
  O_CREAT := 64;
  O_TRUNC := 512;
  O_APPEND := 1024;
  O_EXCL := 128;
  _SC_MQ_PRIO_MAX := 28;
  SEM_FAILED := 0
|}.

(** POSIX message priorities range from 0 (lowest) upwards. *)
Definition MQ_PRIO_LOWEST : Z := 0.

Definition IPC_INVALID_FD : Z := -1.

(** ** Data passed to the kernel *)

(** [fd_set] is an array of [FD_SETSIZE] bits, one per descriptor, kept
    as the number whose bit [fd] is the bit of descriptor [fd].  [FD_SET]
    and [FD_ISSET] index the array with the descriptor and test no bound:
    for a descriptor outside [0, FD_SETSIZE) they reach outside the array,
    which is undefined ([None]). *)
Definition FD_SETSIZE : Z := 1024.
Definition fd_set := Z.
Definition fd_in_set_range (fd : Z) : bool :=
  (0 <=? fd) && (fd <? FD_SETSIZE).
Definition FD_ZERO : fd_set := 0.
Definition FD_SET (fd : Z) (s : fd_set) : option fd_set :=
  if fd_in_set_range fd then Some (Z.lor s (Z.shiftl 1 fd)) else None.
Definition FD_ISSET (fd : Z) (s : fd_set) : option bool :=
  if fd_in_set_range fd then Some (Z.testbit s fd) else None.

Record timeval : Type := { tv_sec : Z; tv_usec : Z }.
Record timespec : Type := { ts_sec : Z; ts_nsec : Z }.

Record mq_attr : Type := {
  mq_flags : Z;
  mq_maxmsg : Z;
  mq_msgsize : Z;
  mq_curmsgs : Z
}.

(** The contents of a [sem_t]: the counter and the process-shared flag.
    All-zero storage (after [memset]) is the counter 0, not shared. *)
Record sem_t : Type := { sem_count : Z; sem_pshared : Z }.
Definition sem_zeroed : sem_t := {| sem_count := 0; sem_pshared := 0 |}.

(** What [select] leaves behind: its return value and the three sets
    (a set passed as a null pointer is not looked at). *)
Record select_result : Type := {
  sel_ret : Z;
  sel_readfds : fd_set;
  sel_writefds : fd_set;
  sel_exceptfds : fd_set
}.

(** ** System and library calls issued by the source *)

Inductive syscall : Type :=
| SysSelect (nfds : Z) (readfds writefds exceptfds : option fd_set)
            (timeout : option timeval)
| SysWrite (fd : Z) (buf : ptr) (count : Z)
| SysRead (fd : Z) (buf : ptr) (count : Z)
| SysPipe
| SysClose (fd : Z)
| SysMkfifo (path : string) (mode : Z)
| SysOpen (path : string) (flags : Z)
| SysMqOpen (name : string) (oflag : Z) (mode : Z) (attr : mq_attr)
| SysMqClose (mqdes : Z)
| SysMqUnlink (name : string)
| SysMqSend (mqdes : Z) (msg : ptr) (len : Z) (prio : Z)
| SysMqTimedSend (mqdes : Z) (msg : ptr) (len : Z) (prio : Z)
                 (abs_timeout : timespec)
| SysMqReceive (mqdes : Z) (msg : ptr) (len : Z)
| SysMqTimedReceive (mqdes : Z) (msg : ptr) (len : Z) (abs_timeout : timespec)
| SysSemOpen (name : string) (oflag : Z) (mode : Z) (value : Z)
| SysSemClose (sem : ptr)
| SysSemUnlink (name : string)
| SysSemInit (sem : sem_t) (pshared : Z) (value : Z)
| SysSemDestroy (sem : sem_t)
| SysSemWait (sem : sem_t)
| SysSemTryWait (sem : sem_t)
| SysSemPost (sem : sem_t)
| SysShmOpen (name : string) (oflag : Z) (mode : Z)
| SysShmUnlink (name : string)
| SysMunmap (addr : ptr) (len : Z).

(** The answer to each call.  Calls on a [sem_t] answer with the return
    value and the new contents of the semaphore; [pipe] answers with the
    return value and the two descriptors it stored. *)
Definition resp (c : syscall) : Type :=
  match c with
  | SysSelect _ _ _ _ _ => select_result
  | SysPipe => (Z * (Z * Z))%type
  | SysSemInit _ _ _ | SysSemDestroy _ | SysSemWait _ | SysSemTryWait _
  | SysSemPost _ => (Z * sem_t)%type
  | _ => Z
  end.

(** ** Programs *)

Inductive exn : Type :=
| runtime_error (what : string)
| invalid_argument (what : string).

(** [Undef] is undefined behaviour: the program left the bounds of an
    object, and nothing is said about what it does from there. *)
Inductive prog (A : Type) : Type :=
| Ret (a : A)
| Throw (e : exn)
| Undef
| Sys (c : syscall) (k : resp c -> prog A).

Arguments Ret {A} a.
Arguments Throw {A} e.
Arguments Undef {A}.
Arguments Sys {A} c k.

Fixpoint bind {A B : Type} (p : prog A) (f : A -> prog B) : prog B :=
  match p with
  | Ret a => f a
  | Throw e => Throw e
  | Undef => Undef
  | Sys c k => Sys c (fun r => bind (k r) f)
  end.

Definition call (c : syscall) : prog (resp c) := Sys c (fun r => Ret r).

Notation "x <- p ;; q" := (bind p (fun x => q))
  (at level 61, p at next level, right associativity).
Notation "p ;;; q" := (bind p (fun _ => q))
  (at level 61, right associativity).

(** ** Running a program against a kernel

    A kernel answers a call in a world, or does not answer at all (the call
    blocks for ever).  A run yields the outcome, the calls issued in order
    and the final world; it stops at undefined behaviour. *)

Record Kernel : Type := {
  World : Type;
  sys : forall c : syscall, World -> option (resp c * World)
}.

Inductive outcome (A : Type) : Type :=
| Returned (a : A)
| Thrown (e : exn)
| Blocked
| Undefined.

Arguments Returned {A} a.
Arguments Thrown {A} e.
Arguments Blocked {A}.
Arguments Undefined {A}.

Definition trace := list syscall.

Fixpoint run {A : Type} (K : Kernel) (p : prog A) (w : World K)
  : outcome A * trace * World K :=
  match p with
  | Ret a => (Returned a, [], w)
  | Throw e => (Thrown e, [], w)
  | Undef => (Undefined, [], w)
  | Sys c k =>
      match sys K c w with
      | None => (Blocked, [c], w)
      | Some (r, w') =>
          let '(o, t, w'') := run K (k r) w' in (o, c :: t, w'')
      end
  end.

(** ** Free functions of namespace [ipc] *)

Module ipc.
Section WithPlatform.
Context {P : Platform}.

(** [trans_mode]: the open flags of a mode character, -1 for any other
    character. *)
Definition trans_mode (mode : ascii) : Z :=
  if Ascii.eqb mode "r" then O_RDONLY
  else if Ascii.eqb mode "a" then Z.lor (Z.lor O_WRONLY O_CREAT) O_APPEND
  else if Ascii.eqb mode "w" then Z.lor (Z.lor O_WRONLY O_CREAT) O_TRUNC
  else if Ascii.eqb mode "m" then Z.lor O_WRONLY O_CREAT
  else if Ascii.eqb mode "d" then Z.lor (Z.lor O_RDWR O_CREAT) O_APPEND
  else -1.

End WithPlatform.

(** [wait_write]: [select] on the write set [{fd}].  [wait] is a [time_t] in
    milliseconds; C division truncates ([Z.quot], [Z.rem]); [tv] is only
    passed when [wait >= 0].  No bound of [fd] is tested before [FD_SET]
    and [FD_ISSET]. *)
Definition wait_write (fd : Z) (wait : Z) : prog Z :=
  match FD_SET fd FD_ZERO with
  | None => Undef
  | Some wfds =>
      let tv := {| tv_sec := Z.quot wait 1000;
                   tv_usec := Z.rem wait 1000 * 1000 |} in
      r <- call (SysSelect (to_int (fd + 1)) None (Some wfds) None
                   (if wait <? 0 then None else Some tv)) ;;
      let ret := sel_ret r in
      let wfds := sel_writefds r in
      if ret <? 0 then Ret (-1)
      else if ret =? 0 then Ret 0
      else match FD_ISSET fd wfds with
           | Some true => Ret 1
           | Some false => Ret 0
           | None => Undef
           end
  end.

(** [wait_read]: the same on the read set. *)
Definition wait_read (fd : Z) (wait : Z) : prog Z :=
  match FD_SET fd FD_ZERO with
  | None => Undef
  | Some rfds =>
      let tv := {| tv_sec := Z.quot wait 1000;
                   tv_usec := Z.rem wait 1000 * 1000 |} in
      r <- call (SysSelect (to_int (fd + 1)) (Some rfds) None None
                   (if wait <? 0 then None else Some tv)) ;;
      let ret := sel_ret r in
      let rfds := sel_readfds r in
      if ret <? 0 then Ret (-1)
      else if ret =? 0 then Ret 0
      else match FD_ISSET fd rfds with
           | Some true => Ret 1
           | Some false => Ret 0
           | None => Undef
           end
  end.

(** [ipc::write]: the [ssize_t] of [::write] is converted to the [int]
    return type. *)
Definition write (fd : Z) (data : ptr) (len : Z) (wait : Z) : prog Z :=
  ret <- wait_write fd wait ;;
  if ret =? 1 then
    n <- call (SysWrite fd data len) ;; Ret (to_int n)
  else if ret <? 0 then Ret (-1)
  else Ret 0.

(** [ipc::read]. *)
Definition read (fd : Z) (data : ptr) (len : Z) (wait : Z) : prog Z :=
  ret <- wait_read fd wait ;;
  if ret =? 1 then
    n <- call (SysRead fd data len) ;; Ret (to_int n)
  else if ret <? 0 then Ret (-1)
  else Ret 0.

End ipc.

(** ** [class Pipe] *)

Module Pipe.

(** [pipe_[0]] is the read end, [pipe_[1]] the write end. *)
Record t : Type := { pipe_0 : Z; pipe_1 : Z }.

(** [Pipe::Pipe()]: both ends are set to [IPC_INVALID_FD], then [pipe]
    stores the two descriptors. *)
Definition new : prog t :=
  r <- call SysPipe ;;
  let '(ret, (fd0, fd1)) := r in
  if ret <? 0 then Throw (runtime_error "open pipe error")
  else Ret {| pipe_0 := fd0; pipe_1 := fd1 |}.

Definition close_r (p : t) : prog t :=
  (if pipe_0 p >=? 0 then call (SysClose (pipe_0 p)) ;;; Ret tt else Ret tt) ;;;
  Ret {| pipe_0 := IPC_INVALID_FD; pipe_1 := pipe_1 p |}.

Definition close_w (p : t) : prog t :=
  (if pipe_1 p >=? 0 then call (SysClose (pipe_1 p)) ;;; Ret tt else Ret tt) ;;;
  Ret {| pipe_0 := pipe_0 p; pipe_1 := IPC_INVALID_FD |}.

Definition close (p : t) : prog t :=
  p1 <- close_w p ;; close_r p1.

Definition read_fd (p : t) : Z := pipe_0 p.
Definition write_fd (p : t) : Z := pipe_1 p.

Definition write (p : t) (data : ptr) (len : Z) (wait : Z) : prog Z :=
  if pipe_1 p <? 0 then Ret (-1)
  else ipc.write (pipe_1 p) data len wait.

Definition read (p : t) (data : ptr) (len : Z) (wait : Z) : prog Z :=
  if pipe_0 p <? 0 then Ret (-1)
  else ipc.read (pipe_0 p) data len wait.

End Pipe.

(** ** [class Fifo]

    [path] is a non-null C string: the member initialiser [path_(path)]
    already requires it, so the test [!path] of the constructor body never
    holds. *)

Module Fifo.
Section WithPlatform.
Context {P : Platform}.

Record t : Type := { path_ : string; fd_ : Z }.

Definition new (path : string) (mode : ascii) : prog t :=
  if ipc.trans_mode mode <? 0 then
    Throw (invalid_argument "path or mode error")
  else
    r <- call (SysMkfifo path (ipc.trans_mode mode)) ;;
    if r <? 0 then Throw (runtime_error "mkfifo error")
    else Ret {| path_ := path; fd_ := IPC_INVALID_FD |}.

Definition open (f : t) (mode : ascii) : prog (bool * t) :=
  if fd_ f >=? 0 then Ret (false, f)
  else if ipc.trans_mode mode <? 0 then Ret (false, f)
  else
    r <- call (SysOpen (path_ f) (ipc.trans_mode mode)) ;;
    if r <? 0 then Ret (false, {| path_ := path_ f; fd_ := IPC_INVALID_FD |})
    else Ret (true, {| path_ := path_ f; fd_ := r |}).

Definition close (f : t) : prog t :=
  if fd_ f >=? 0 then
    call (SysClose (fd_ f)) ;;;
    Ret {| path_ := path_ f; fd_ := IPC_INVALID_FD |}
  else Ret f.

Definition write (f : t) (data : ptr) (len : Z) (wait : Z) : prog Z :=
  if fd_ f <? 0 then Ret (-1)
  else ipc.write (fd_ f) data len wait.

Definition read (f : t) (data : ptr) (len : Z) (wait : Z) : prog Z :=
  if fd_ f <? 0 then Ret (-1)
  else ipc.read (fd_ f) data len wait.

End WithPlatform.
End Fifo.

(** ** [class PosixMsgQueue] *)

(** Conversion of a [size_t] to [long]. *)
Definition to_long (z : Z) : Z := (z + 2 ^ 63) mod 2 ^ 64 - 2 ^ 63.

Module PosixMsgQueue.
Section WithPlatform.
Context {P : Platform}.

(** [maxmsg_] is a [size_t]. *)
Record t : Type := { fd_ : Z; path_ : string; maxmsg_ : Z }.

(** The constructor: [mq_open] is called with [trans_mode(mode)] as it is;
    0666 is 438. *)
Definition new (path : string) (mode : ascii) (maxmsg : Z) (srv : bool)
  : prog t :=
  let attr := {| mq_flags := 0; mq_maxmsg := 20;
                 mq_msgsize := to_long maxmsg; mq_curmsgs := 0 |} in
  r <- call (SysMqOpen path (ipc.trans_mode mode) 438 attr) ;;
  if r <? 0 then Throw (runtime_error "open msg queue error")
  else Ret {| fd_ := r; path_ := path; maxmsg_ := maxmsg |}.

Definition close (q : t) : prog t :=
  if fd_ q >=? 0 then
    call (SysMqClose (fd_ q)) ;;;
    Ret {| fd_ := IPC_INVALID_FD; path_ := path_ q; maxmsg_ := maxmsg_ q |}
  else Ret q.

Definition destroy (q : t) : prog t :=
  q1 <- close q ;;
  call (SysMqUnlink (path_ q1)) ;;;
  Ret q1.

(** [write]: the priority argument is the constant [_SC_MQ_PRIO_MAX]; the
    [timespec] is built from [wait] alone; [len] (a [size_t]) is converted
    to the [int] return type. *)
Definition write (q : t) (data : ptr) (len : Z) (wait : Z) : prog Z :=
  if fd_ q <? 0 then Ret (-1)
  else if wait <? 0 then
    r <- call (SysMqSend (fd_ q) data len _SC_MQ_PRIO_MAX) ;;
    if r <? 0 then Ret (-1) else Ret (to_int len)
  else
    let abs_timeout := {| ts_sec := Z.quot wait 1000;
                          ts_nsec := Z.rem wait 1000 * 1000 |} in
    r <- call (SysMqTimedSend (fd_ q) data len _SC_MQ_PRIO_MAX abs_timeout) ;;
    if r <? 0 then Ret (-1) else Ret (to_int len).

(** [read]: the length handed to the receive call is [maxmsg_]; the
    [ssize_t] result is converted to [int]. *)
Definition read (q : t) (data : ptr) (len : Z) (wait : Z) : prog Z :=
  if fd_ q <? 0 then Ret (-1)
  else if len >? maxmsg_ q then Ret (-1)
  else if wait <? 0 then
    r <- call (SysMqReceive (fd_ q) data (maxmsg_ q)) ;; Ret (to_int r)
  else
    let abs_timeout := {| ts_sec := Z.quot wait 1000;
                          ts_nsec := Z.rem wait 1000 * 1000 |} in
    r <- call (SysMqTimedReceive (fd_ q) data (maxmsg_ q) abs_timeout) ;;
    Ret (to_int r).

End WithPlatform.
End PosixMsgQueue.

(** ** [class NameSem] (construction, [close], [unlink]) *)

Module NameSem.
Section WithPlatform.
Context {P : Platform}.

Record t : Type := { sem_ : ptr; name_ : string }.

Definition new (name : string) (srv : bool) : prog t :=
  sem <- call (SysSemOpen name (if srv then Z.lor O_CREAT O_EXCL else O_CREAT)
                 438 1) ;;
  if SEM_FAILED =? sem then Throw (runtime_error "open sem error")
  else Ret {| sem_ := sem; name_ := name |}.

Definition close (s : t) : prog t :=
  if negb (sem_ s =? nullptr) then
    call (SysSemClose (sem_ s)) ;;;
    Ret {| sem_ := nullptr; name_ := name_ s |}
  else Ret s.

Definition unlink (s : t) : prog t :=
  s1 <- close s ;;
  call (SysSemUnlink (name_ s1)) ;;;
  Ret s1.

End WithPlatform.
End NameSem.

(** ** [class Sem]: the [sem_t] is a data member *)

Module Sem.

Record t : Type := { sem_ : sem_t }.

(** [Sem::Sem(shared)]: the storage is zeroed, then initialised with the
    count 1. *)
Definition new (shared : bool) : prog t :=
  r <- call (SysSemInit sem_zeroed (if shared then 1 else 0) 1) ;;
  let '(ret, s) := r in
  if ret <? 0 then Throw (runtime_error "sem init error")
  else Ret {| sem_ := s |}.

Definition close (s : t) : prog t :=
  call (SysSemDestroy (sem_ s)) ;;;
  Ret {| sem_ := sem_zeroed |}.

Definition sem_p (s : t) (block : bool) : prog (bool * t) :=
  if negb block then
    r <- call (SysSemTryWait (sem_ s)) ;;
    let '(ret, s') := r in Ret (0 =? ret, {| sem_ := s' |})
  else
    r <- call (SysSemWait (sem_ s)) ;;
    let '(ret, s') := r in Ret (0 =? ret, {| sem_ := s' |}).

Definition sem_v (s : t) : prog (bool * t) :=
  r <- call (SysSemPost (sem_ s)) ;;
  let '(ret, s') := r in Ret (0 =? ret, {| sem_ := s' |}).

End Sem.

(** ** [class PosixShareMem] (construction, [unmap], [destroy], [addr])

    [len_] is not initialised by the constructor: its indeterminate value is
    the argument [len0]. *)

Module PosixShareMem.
Section WithPlatform.
Context {P : Platform}.

Record t : Type := { addr_ : ptr; fd_ : Z; len_ : Z; name_ : string }.

Definition new (name : string) (mode : ascii) (len0 : Z) : prog t :=
  if ipc.trans_mode mode <? 0 then
    Throw (invalid_argument "name or mode error")
  else
    r <- call (SysShmOpen name (ipc.trans_mode mode) 438) ;;
    if r <? 0 then Throw (runtime_error "shm_open error")
    else Ret {| addr_ := nullptr; fd_ := r; len_ := len0; name_ := name |}.

(** [unmap] calls [munmap] when [addr_] is not null and assigns nothing. *)
Definition unmap (m : t) : prog t :=
  if negb (addr_ m =? nullptr) then
    call (SysMunmap (addr_ m) (len_ m)) ;;; Ret m
  else Ret m.

Definition destroy (m : t) : prog t :=
  m1 <- unmap m ;;
  match name_ m1 with
  | EmptyString => Ret m1
  | _ => call (SysShmUnlink (name_ m1)) ;;; Ret m1
  end.

Definition addr (m : t) : ptr := addr_ m.

End WithPlatform.
End PosixShareMem.

(** ** The POSIX counting semaphore

    The behaviour of the semaphore calls on the contents of a [sem_t]
    ([sem_overview(7)]): [sem_init] stores the count; [sem_wait] takes one
    unit when the count is positive and otherwise does not return;
    [sem_trywait] fails instead of waiting; [sem_post] adds one unit.
    [posix_sem c] is [None] when [c] is not a semaphore call,
    [Some None] when the call blocks, and [Some (Some r)] when it answers
    [r]. *)

Definition SEM_VALUE_MAX : Z := 2147483647.

Definition sem_add (s : sem_t) (d : Z) : sem_t :=
  {| sem_count := sem_count s + d; sem_pshared := sem_pshared s |}.

Definition posix_sem (c : syscall) : option (option (resp c)) :=
  match c as c0 return option (option (resp c0)) with
  | SysSemInit s pshared value =>
      Some (Some (if value >? SEM_VALUE_MAX then (-1, s)
                  else (0, {| sem_count := value; sem_pshared := pshared |})))
  | SysSemDestroy s => Some (Some (0, s))
  | SysSemWait s =>
      Some (if sem_count s >? 0 then Some (0, sem_add s (-1)) else None)
  | SysSemTryWait s =>
      Some (Some (if sem_count s >? 0 then (0, sem_add s (-1)) else (-1, s)))
  | SysSemPost s =>
      Some (Some (if sem_count s <? SEM_VALUE_MAX then (0, sem_add s 1)
                  else (-1, s)))
  | _ => None
  end.

(** A kernel implements POSIX semaphores when it answers every semaphore
    call as [posix_sem] says. *)
Definition implements_posix_sem (K : Kernel) : Prop :=
  forall (c : syscall) (w : World K),
    match posix_sem c with
    | Some (Some r) => exists w', sys K c w = Some (r, w')
    | Some None => sys K c w = None
    | None => True
    end.

(** A kernel that never leaves a call unanswered. *)
Definition answers_all (K : Kernel) : Prop :=
  forall (c : syscall) (w : World K), sys K c w <> None.

(** ** Two concrete kernels *)

Definition set_or_empty (s : option fd_set) : fd_set :=
  match s with Some x => x | None => FD_ZERO end.

(** Every descriptor asked about is ready, every transfer is complete, every
    open yields descriptor 3. *)
Definition ready_answer (c : syscall) : resp c :=
  match c as c0 return resp c0 with
  | SysSelect _ r w e _ =>
      {| sel_ret := 1; sel_readfds := set_or_empty r;
         sel_writefds := set_or_empty w; sel_exceptfds := set_or_empty e |}
  | SysWrite _ _ count => count
  | SysRead _ _ count => count
  | SysPipe => (0, (3, 4))
  | SysOpen _ _ => 3
  | SysMqOpen _ _ _ _ => 3
  | SysShmOpen _ _ _ => 3
  | SysSemOpen _ _ _ _ => 4096
  | SysMqReceive _ _ len => len
  | SysMqTimedReceive _ _ len _ => len
  | SysSemInit s _ _ => (0, s)
  | SysSemDestroy s => (0, s)
  | SysSemWait s => (0, s)
  | SysSemTryWait s => (0, s)
  | SysSemPost s => (0, s)
  | _ => 0
  end.

(** Every call fails. *)
Definition failing_answer (c : syscall) : resp c :=
  match c as c0 return resp c0 with
  | SysSelect _ r w e _ =>
      {| sel_ret := -1; sel_readfds := set_or_empty r;
         sel_writefds := set_or_empty w; sel_exceptfds := set_or_empty e |}
  | SysPipe => (-1, (-1, -1))
  | SysSemOpen _ _ _ _ => 0
  | SysSemInit s _ _ => (-1, s)
  | SysSemDestroy s => (-1, s)
  | SysSemWait s => (-1, s)
  | SysSemTryWait s => (-1, s)
  | SysSemPost s => (-1, s)
  | _ => -1
  end.

(** POSIX semaphores, and [ready_answer] for every other call. *)
Definition ready_kernel : Kernel := {|
  World := unit;
  sys := fun c _ =>
    match posix_sem c with
    | Some (Some r) => Some (r, tt)
    | Some None => None
    | None => Some (ready_answer c, tt)
    end
|}.

Definition failing_kernel : Kernel := {|
  World := unit;
  sys := fun c _ => Some (failing_answer c, tt)
|}.

(** ** Vocabulary of the statements *)


Definition calls_of {A : Type} (K : Kernel) (p : prog A) (w : World K)
  : trace :=
  snd (fst (run K p w)).

Definition result_of {A : Type} (K : Kernel) (p : prog A) (w : World K)
  : outcome A :=
  fst (fst (run K p w)).

(** A second call of a release operation, on the state the first call left,
    never throws, leaves that state as it is, and returns when the kernel
    answers. *)
Definition release_idempotent {S : Type} (f : S -> prog S) : Prop :=
  forall K w s s1 t1 w1,
    run K (f s) w = (Returned s1, t1, w1) ->
    forall K' (w' : World K'),
      (forall e, result_of K' (f s1) w' <> Thrown e) /\
      (forall s2, result_of K' (f s1) w' = Returned s2 -> s2 = s1) /\
      (answers_all K' -> result_of K' (f s1) w' = Returned s1).

(** The second call does nothing at all. *)
Definition release_quiet {S : Type} (f : S -> prog S) : Prop :=
  forall K w s s1 t1 w1,
    run K (f s) w = (Returned s1, t1, w1) ->
    forall K' (w' : World K'),
      run K' (f s1) w' = (Returned s1, [], w').

(** A point in time as nanoseconds since the Epoch. *)
Definition timespec_ns (ts : timespec) : Z :=
  ts_sec ts * 1000000000 + ts_nsec ts.

(** A duration as microseconds. *)
Definition timeval_us (tv : timeval) : Z := tv_sec tv * 1000000 + tv_usec tv.

(** The mode characters of [trans_mode]. *)
Definition mode_chars : list ascii := ["r"; "a"; "w"; "m"; "d"]%char.

(** What a readiness probe [p] on [fd] does with the answer of its one
    [select] call: -1 exactly on failure, 1 exactly when the call reports
    descriptors and [fd] is in the set it left ([signaled]), 0 otherwise. *)
Definition probe_outcome (K : Kernel) (w : World K) (p : prog Z) (fd : Z)
    (nfds : Z) (rs ws es : option fd_set) (tmo : option timeval)
    (signaled : select_result -> fd_set) : Prop :=
  let c := SysSelect nfds rs ws es tmo in
  (sys K c w = None -> run K p w = (Blocked, [c], w)) /\
  (forall (r : select_result) (w1 : World K),
      sys K c w = Some (r, w1) ->
      exists v,
        run K p w = (Returned v, [c], w1) /\
        (v = -1 <-> sel_ret r < 0) /\
        (v = 0 <->
           sel_ret r = 0 \/
           (0 < sel_ret r /\ FD_ISSET fd (signaled r) = Some false)) /\
        (v = 1 <-> 0 < sel_ret r /\ FD_ISSET fd (signaled r) = Some true)).

(** What a guarded transfer does after its probe: when the probe returned
    [p] after the calls [t], the transfer returns -1 for [p = -1] and 0 for
    [p = 0] with no further call; for [p = 1] it issues the one call [io]
    and returns its answer [n] converted to [int], which is [n] itself
    whenever [n] fits an [int]. *)
Definition guarded_outcome (K : Kernel) (w : World K) (probe guarded : prog Z)
    (io : syscall) (answer : resp io -> Z) : Prop :=
  forall (p : Z) (t : trace) (w1 : World K),
    run K probe w = (Returned p, t, w1) ->
    (p = -1 \/ p = 0 \/ p = 1) /\
    (exists nfds rs ws es tmo, t = [SysSelect nfds rs ws es tmo]) /\
    (p = -1 -> run K guarded w = (Returned (-1), t, w1)) /\
    (p = 0 -> run K guarded w = (Returned 0, t, w1)) /\
    (p = 1 ->
     (sys K io w1 = None ->
      run K guarded w = (Blocked, (t ++ [io])%list, w1)) /\
     (forall (n : resp io) (w2 : World K),
         sys K io w1 = Some (n, w2) ->
         run K guarded w =
           (Returned (to_int (answer n)), (t ++ [io])%list, w2) /\
         (in_int (answer n) -> to_int (answer n) = answer n))).

(** [s] is a state that the program [p] can return. *)
Definition reached_by {S : Type} (p : prog S) (s : S) : Prop :=
  exists K (w : World K) t w', run K p w = (Returned s, t, w').

(** A transfer on [s] returns -1 at once: no call, no wait. *)
Definition refuses {S : Type} (io : S -> ptr -> Z -> Z -> prog Z) (s : S)
  : Prop :=
  forall K (w : World K) data len wait,
    run K (io s data len wait) w = (Returned (-1), [], w).

(** The only call of the run is a blocking [mq_send] at priority [prio]. *)
Definition sends_at_priority (K : Kernel) (p : prog Z) (w : World K)
    (prio : Z) : Prop :=
  exists mqdes msg len, calls_of K p w = [SysMqSend mqdes msg len prio].

(** The queue of [test/ipc.cc] once open: default [maxmsg] 8192. *)
Definition test_queue : PosixMsgQueue.t :=
  {| PosixMsgQueue.fd_ := 3;
     PosixMsgQueue.path_ := "/ipc_test";
     PosixMsgQueue.maxmsg_ := 8192 |}.

(** ** Members that configure or inspect a handle

    [set_fd_block], the [set_block] members, [notify] and the members of
    [NameSem] that work on the opened semaphore use calls of their own
    ([fcntl], [mq_getattr], [mq_setattr], [mq_notify] and the semaphore
    calls on a [sem_t*]).  None of them throws; they are trees over this
    second alphabet, run against a kernel for it. *)

(** Constants of [<fcntl.h>] used by these members. *)
Class FcntlConsts : Type := {
  F_GETFL : Z;
  F_SETFL : Z;
  O_NONBLOCK : Z
}.

(** Linux: [F_GETFL] 3, [F_SETFL] 4, [O_NONBLOCK] 04000. *)
Definition linux_fcntl : FcntlConsts := {|
  F_GETFL := 3;
  F_SETFL := 4;
  O_NONBLOCK := 2048
|}.

Inductive ctlcall : Type :=
| SysFcntl (fd : Z) (cmd : Z) (arg : Z)
| SysMqGetattr (mqdes : Z)
| SysMqSetattr (mqdes : Z) (newattr : mq_attr)
| SysMqNotify (mqdes : Z) (sevp : ptr)
| SysSemGetvalue (sem : ptr)
| SysSemWaitAt (sem : ptr)
| SysSemTryWaitAt (sem : ptr)
| SysSemPostAt (sem : ptr).

(** [mq_getattr] answers with its return value and the attributes it
    stored, [sem_getvalue] with its return value and the count it stored. *)
Definition ctlresp (c : ctlcall) : Type :=
  match c with
  | SysMqGetattr _ => (Z * mq_attr)%type
  | SysSemGetvalue _ => (Z * Z)%type
  | _ => Z
  end.

Inductive ctl (A : Type) : Type :=
| CRet (a : A)
| CSys (c : ctlcall) (k : ctlresp c -> ctl A).

Arguments CRet {A} a.
Arguments CSys {A} c k.

Fixpoint cbind {A B : Type} (p : ctl A) (f : A -> ctl B) : ctl B :=
  match p with
  | CRet a => f a
  | CSys c k => CSys c (fun r => cbind (k r) f)
  end.

Definition ccall (c : ctlcall) : ctl (ctlresp c) := CSys c (fun r => CRet r).

Notation "x <~ p ;; q" := (cbind p (fun x => q))
  (at level 61, p at next level, right associativity).

Record CtlKernel : Type := {
  CWorld : Type;
  csys : forall c : ctlcall, CWorld -> option (ctlresp c * CWorld)
}.

(** The outcome ([Returned] or [Blocked]), the calls issued and the final
    world. *)
Fixpoint crun {A : Type} (K : CtlKernel) (p : ctl A) (w : CWorld K)
  : outcome A * list ctlcall * CWorld K :=
  match p with
  | CRet a => (Returned a, [], w)
  | CSys c k =>
      match csys K c w with
      | None => (Blocked, [c], w)
      | Some (r, w') =>
          let '(o, t, w'') := crun K (k r) w' in (o, c :: t, w'')
      end
  end.

Definition ccalls_of {A : Type} (K : CtlKernel) (p : ctl A) (w : CWorld K)
  : list ctlcall :=
  snd (fst (crun K p w)).

Section WithFcntl.
Context {F : FcntlConsts}.

(** [set_fd_block]: read the status flags, clear ([en]) or set (not [en])
    [O_NONBLOCK], write them back. *)
Definition set_fd_block (fd : Z) (en : bool) : ctl bool :=
  flag <~ ccall (SysFcntl fd F_GETFL 0) ;;
  if flag <? 0 then CRet false
  else
    let flag := if en then Z.land flag (Z.lnot O_NONBLOCK)
                else Z.lor flag O_NONBLOCK in
    r <~ ccall (SysFcntl fd F_SETFL flag) ;;
    CRet (r =? 0).

End WithFcntl.

Module PipeCtl.
Section WithFcntl.
Context {F : FcntlConsts}.

(** [Pipe::set_size]: no call is made; the size is not looked at. *)
Definition set_size (p : Pipe.t) (size : Z) : bool :=
  if (Pipe.pipe_0 p <? 0) && (Pipe.pipe_1 p <? 0) then false else true.

(** [Pipe::set_block]: the read end when it is open, else the write end
    when it is open. *)
Definition set_block (p : Pipe.t) (en : bool) : ctl bool :=
  if Pipe.pipe_0 p >=? 0 then
    b <~ set_fd_block (Pipe.pipe_0 p) en ;;
    if b then CRet true else CRet false
  else if Pipe.pipe_1 p >=? 0 then
    b <~ set_fd_block (Pipe.pipe_1 p) en ;;
    if b then CRet true else CRet false
  else CRet false.

End WithFcntl.
End PipeCtl.

Module FifoCtl.
Section WithFcntl.
Context {F : FcntlConsts}.

(** [Fifo::set_block]: [fd_] is passed on as it is. *)
Definition set_block (f : Fifo.t) (en : bool) : ctl bool :=
  b <~ set_fd_block (Fifo.fd_ f) en ;;
  if b then CRet true else CRet false.

End WithFcntl.
End FifoCtl.

Module PosixMsgQueueCtl.
Section WithFcntl.
Context {F : FcntlConsts}.

(** [PosixMsgQueue::set_block]: the attributes are read, [mq_flags] is
    replaced, and they are written back (no old attributes are asked
    for). *)
Definition set_block (q : PosixMsgQueue.t) (en : bool) : ctl bool :=
  if PosixMsgQueue.fd_ q <? 0 then CRet false
  else
    r <~ ccall (SysMqGetattr (PosixMsgQueue.fd_ q)) ;;
    let '(ret, attr) := r in
    if ret <? 0 then CRet false
    else
      let attr := {| mq_flags := if en then 0 else O_NONBLOCK;
                     mq_maxmsg := mq_maxmsg attr;
                     mq_msgsize := mq_msgsize attr;
                     mq_curmsgs := mq_curmsgs attr |} in
      r <~ ccall (SysMqSetattr (PosixMsgQueue.fd_ q) attr) ;;
      CRet (0 =? r).

End WithFcntl.

Definition notify (q : PosixMsgQueue.t) (notification : ptr) : ctl bool :=
  if PosixMsgQueue.fd_ q <? 0 then CRet false
  else
    r <~ ccall (SysMqNotify (PosixMsgQueue.fd_ q) notification) ;;
    CRet (0 =? r).

End PosixMsgQueueCtl.

Module NameSemCtl.

Definition value (s : NameSem.t) : ctl Z :=
  if NameSem.sem_ s =? nullptr then CRet (-1)
  else
    r <~ ccall (SysSemGetvalue (NameSem.sem_ s)) ;;
    let '(ret, val) := r in
    if ret <? 0 then CRet (-1) else CRet val.

Definition sem_p (s : NameSem.t) (block : bool) : ctl bool :=
  if NameSem.sem_ s =? nullptr then CRet false
  else if negb block then
    r <~ ccall (SysSemTryWaitAt (NameSem.sem_ s)) ;; CRet (0 =? r)
  else
    r <~ ccall (SysSemWaitAt (NameSem.sem_ s)) ;; CRet (0 =? r).

Definition sem_v (s : NameSem.t) : ctl bool :=
  if NameSem.sem_ s =? nullptr then CRet false
  else
    r <~ ccall (SysSemPostAt (NameSem.sem_ s)) ;; CRet (0 =? r).

End NameSemCtl.

(** A kernel for these calls: [fcntl(F_GETFL)] answers the flags [flags0]
    and every other call answers 0 (with zeroed attributes or count). *)
Definition plain_ctl_kernel (getfl : Z) (flags0 : Z) : CtlKernel := {|
  CWorld := unit;
  csys := fun c _ =>
    Some (match c as c0 return ctlresp c0 with
          | SysFcntl _ cmd _ => if cmd =? getfl then flags0 else 0
          | SysMqGetattr _ =>
              (0, {| mq_flags := flags0; mq_maxmsg := 20;
                     mq_msgsize := 8192; mq_curmsgs := 0 |})
          | SysSemGetvalue _ => (0, 0)
          | _ => 0
          end, tt)
|}.

(** ** States a handle can reach

    The states of a [Fifo] built by its constructor and driven by [open]
    and [close], and of a [PosixMsgQueue] built by its constructor and
    driven by [close] and [destroy], each step in any kernel and world. *)

Inductive Fifo_reachable {P : Platform} (path : string) : Fifo.t -> Prop :=
| Fifo_reach_new mode f :
    reached_by (Fifo.new path mode) f -> Fifo_reachable path f
| Fifo_reach_open f mode b f' :
    Fifo_reachable path f ->
    reached_by (Fifo.open f mode) (b, f') -> Fifo_reachable path f'
| Fifo_reach_close f f' :
    Fifo_reachable path f ->
    reached_by (Fifo.close f) f' -> Fifo_reachable path f'.

Inductive Queue_reachable {P : Platform} (path : string) (maxmsg : Z)
  : PosixMsgQueue.t -> Prop :=
| Queue_reach_new mode srv q :
    reached_by (PosixMsgQueue.new path mode maxmsg srv) q ->
    Queue_reachable path maxmsg q
| Queue_reach_close q q' :
    Queue_reachable path maxmsg q ->
    reached_by (PosixMsgQueue.close q) q' -> Queue_reachable path maxmsg q'
| Queue_reach_destroy q q' :
    Queue_reachable path maxmsg q ->
    reached_by (PosixMsgQueue.destroy q) q' -> Queue_reachable path maxmsg q'.

(** The states of a [PosixShareMem] built by its constructor and driven by
    [unmap] and [destroy]. *)
Inductive Shm_reachable {P : Platform} (name : string)
  : PosixShareMem.t -> Prop :=
| Shm_reach_new mode len0 m :
    reached_by (PosixShareMem.new name mode len0) m -> Shm_reachable name m
| Shm_reach_unmap m m' :
    Shm_reachable name m ->
    reached_by (PosixShareMem.unmap m) m' -> Shm_reachable name m'
| Shm_reach_destroy m m' :
    Shm_reachable name m ->
    reached_by (PosixShareMem.destroy m) m' -> Shm_reachable name m'.

(** A [close] call on a descriptor. *)
Definition is_close (c : syscall) : bool :=
  match c with SysClose _ => true | _ => false end.

(** [n] releases in a row, and [n] non-blocking acquisitions in a row that
    all succeed; [None] when a call does not return or an acquisition
    fails. *)
Fixpoint release_n (K : Kernel) (n : nat) (s : Sem.t) (w : World K)
  : option (Sem.t * World K) :=
  match n with
  | O => Some (s, w)
  | S n' =>
      match run K (Sem.sem_v s) w with
      | (Returned (true, s'), _, w') => release_n K n' s' w'
      | _ => None
      end
  end.

Fixpoint acquire_n (K : Kernel) (n : nat) (s : Sem.t) (w : World K)
  : option (Sem.t * World K) :=
  match n with
  | O => Some (s, w)
  | S n' =>
      match run K (Sem.sem_p s false) w with
      | (Returned (true, s'), _, w') => acquire_n K n' s' w'
      | _ => None
      end
  end.

(** The open flags of the platform are non-negative numbers. *)
Definition flags_nonneg (P : Platform) : Prop :=
  0 <= O_RDONLY /\ 0 <= O_WRONLY /\ 0 <= O_RDWR /\
  0 <= O_CREAT /\ 0 <= O_TRUNC /\ 0 <= O_APPEND.

(** A kernel that keeps the status flags of one descriptor: its world is
    the flag word; [F_GETFL] answers it, [F_SETFL] stores its argument and
    answers 0, any other command fails, and the remaining calls answer 0. *)
Definition fcntl_kernel {F : FcntlConsts} : CtlKernel := {|
  CWorld := Z;
  csys := fun c flags =>
    match c as c0 return option (ctlresp c0 * Z) with
    | SysFcntl _ cmd arg =>
        if cmd =? F_GETFL then Some (flags, flags)
        else if cmd =? F_SETFL then Some (0, arg)
        else Some (-1, flags)
    | SysMqGetattr _ =>
        Some ((0, {| mq_flags := 0; mq_maxmsg := 0;
                     mq_msgsize := 0; mq_curmsgs := 0 |}), flags)
    | SysSemGetvalue _ => Some ((0, 0), flags)
    | _ => Some (0, flags)
    end
|}.

(** ** Proof steps

    [run_inv H] takes a hypothesis about a run apart along the tests and
    the kernel answers it goes through; [bools] turns boolean comparisons
    in the context into propositions. *)

Ltac run_inv H :=
  repeat (simpl in H;
          match type of H with
          | context [if ?b then _ else _] => destruct b eqn:?
          | context [match sys ?K ?c ?w with _ => _ end] =>
              destruct (sys K c w) as [[? ?] | ] eqn:?
          end);
  simpl in H; try discriminate H.

Ltac bools :=
  repeat match goal with
         | H : (_ >=? _) = _ |- _ => rewrite Z.geb_leb in H
         | H : (_ >? _) = _ |- _ => rewrite Z.gtb_ltb in H
         | H : (_ <=? _) = true |- _ => apply Z.leb_le in H
         | H : (_ <=? _) = false |- _ => apply Z.leb_gt in H
         | H : (_ <? _) = true |- _ => apply Z.ltb_lt in H
         | H : (_ <? _) = false |- _ => apply Z.ltb_ge in H
         | H : (_ =? _) = true |- _ => apply Z.eqb_eq in H
         | H : (_ =? _) = false |- _ => apply Z.eqb_neq in H
         | H : negb _ = true |- _ => apply negb_true_iff in H
         | H : negb _ = false |- _ => apply negb_false_iff in H
         end.

(** * Properties *)

(** ** Running composed programs *)

Lemma run_bind (A B : Type) (K : Kernel) (p : prog A) (f : A -> prog B)
      (w : World K) :
  run K (bind p f) w =
  match run K p w with
  | (Returned a, t, w1) =>
      let '(o, t', w2) := run K (f a) w1 in (o, t ++ t', w2)
  | (Thrown e, t, w1) => (Thrown e, t, w1)
  | (Blocked, t, w1) => (Blocked, t, w1)
  | (Undefined, t, w1) => (Undefined, t, w1)
  end.
Proof.
  revert w; induction p as [a | e | | c k IH]; intros w; simpl.
  - destruct (run K (f a) w) as [[o t] w2]; reflexivity.
  - reflexivity.
  - reflexivity.
  - destruct (sys K c w) as [[r w1] | ]; [ | reflexivity].
    rewrite IH.
    destruct (run K (k r) w1) as [[[a | e | | ] t] w2]; try reflexivity.
    destruct (run K (f a) w2) as [[o t'] w3]; reflexivity.
Qed.

(** ** Integer conversions and descriptor sets *)

Lemma to_int_id (z : Z) : in_int z -> to_int z = z.
Proof.
  unfold in_int, INT_MIN, INT_MAX, to_int; intros Hz.
  rewrite Z.mod_small; lia.
Qed.

Lemma fd_in_set_range_true (fd : Z) :
  0 <= fd < FD_SETSIZE -> fd_in_set_range fd = true.
Proof.
  intros [Hlo Hhi]; unfold fd_in_set_range.
  apply andb_true_intro; split; [apply Z.leb_le | apply Z.ltb_lt];
    assumption.
Qed.

Lemma FD_ISSET_in_range (fd : Z) (s : fd_set) :
  0 <= fd < FD_SETSIZE -> FD_ISSET fd s = Some (Z.testbit s fd).
Proof.
  intros Hfd; unfold FD_ISSET; rewrite (fd_in_set_range_true fd Hfd).
  reflexivity.
Qed.

(** Within the bounds, [FD_SET] on the empty set gives the set holding
    [fd] alone, and it fits the [FD_SETSIZE] bits of the array. *)
Lemma FD_SET_singleton (fd : Z) :
  0 <= fd < FD_SETSIZE ->
  exists set : fd_set,
    FD_SET fd FD_ZERO = Some set /\
    0 <= set < 2 ^ FD_SETSIZE /\
    (forall x, 0 <= x < FD_SETSIZE -> FD_ISSET x set = Some (x =? fd)).
Proof.
  intros Hfd; exists (2 ^ fd).
  split; [ | split].
  - unfold FD_SET, FD_ZERO; rewrite (fd_in_set_range_true fd Hfd).
    rewrite Z.lor_0_l, Z.shiftl_1_l; reflexivity.
  - split; [apply Z.pow_nonneg; lia | ].
    apply Z.pow_lt_mono_r; lia.
  - intros x Hx; rewrite (FD_ISSET_in_range x _ Hx).
    rewrite Z.pow2_bits_eqb by lia.
    f_equal; apply Z.eqb_sym.
Qed.

(** Outside the bounds both probes are undefined before any call. *)
Lemma wait_out_of_bounds (K : Kernel) (w : World K) (fd wait : Z) :
  fd < 0 \/ FD_SETSIZE <= fd ->
  run K (ipc.wait_write fd wait) w = (Undefined, [], w) /\
  run K (ipc.wait_read fd wait) w = (Undefined, [], w).
Proof.
  intros Hout.
  assert (Hrange : fd_in_set_range fd = false).
  { unfold fd_in_set_range; apply andb_false_iff.
    destruct Hout as [Hlo | Hhi];
      [left; apply Z.leb_gt | right; apply Z.ltb_ge]; assumption. }
  unfold ipc.wait_write, ipc.wait_read, FD_SET; rewrite Hrange.
  split; reflexivity.
Qed.

(** The two fields built from a millisecond count [wait >= 0]. *)
Lemma ms_split (wait : Z) :
  0 <= wait ->
  0 <= Z.quot wait 1000 /\
  0 <= Z.rem wait 1000 < 1000 /\
  wait = 1000 * Z.quot wait 1000 + Z.rem wait 1000.
Proof.
  intros Hw.
  pose proof (Z.quot_rem' wait 1000) as Hqr.
  pose proof (Z.rem_bound_pos wait 1000 Hw ltac:(lia)) as Hr.
  pose proof (Z.quot_pos wait 1000 Hw ltac:(lia)) as Hq.
  repeat split; lia.
Qed.

(** ** Readiness probes *)

Lemma select_timeout_cases (wait : Z) :
  let tmo := if wait <? 0 then None
             else Some {| tv_sec := Z.quot wait 1000;
                          tv_usec := Z.rem wait 1000 * 1000 |} in
  (wait < 0 -> tmo = None) /\
  (wait = 0 -> tmo = Some {| tv_sec := 0; tv_usec := 0 |}) /\
  (0 < wait ->
   exists tv, tmo = Some tv /\ timeval_us tv = wait * 1000 /\
              0 <= tv_sec tv /\ 0 <= tv_usec tv < 1000000).
Proof.
  intros tmo; subst tmo; repeat split.
  - intros H; apply Z.ltb_lt in H; rewrite H; reflexivity.
  - intros ->; reflexivity.
  - intros H.
    destruct (Z.ltb_spec wait 0) as [Hlt | Hge]; [lia | ].
    eexists; split; [reflexivity | ].
    destruct (ms_split wait Hge) as (Hq & Hr & Heq).
    unfold timeval_us; simpl; lia.
Qed.

Lemma probe_outcome_intro (K : Kernel) (w : World K) (fd nfds : Z)
      (rs ws es : option fd_set) (tmo : option timeval)
      (signaled : select_result -> fd_set) :
  0 <= fd < FD_SETSIZE ->
  probe_outcome K w
    (r <- call (SysSelect nfds rs ws es tmo) ;;
     if sel_ret r <? 0 then Ret (-1)
     else if sel_ret r =? 0 then Ret 0
     else match FD_ISSET fd (signaled r) with
          | Some true => Ret 1
          | Some false => Ret 0
          | None => Undef
          end)
    fd nfds rs ws es tmo signaled.
Proof.
  intros Hfd; unfold probe_outcome; simpl; split.
  - intros ->; reflexivity.
  - intros r w1 ->.
    rewrite (FD_ISSET_in_range fd (signaled r) Hfd).
    destruct (Z.ltb_spec (sel_ret r) 0) as [Hneg | Hnn].
    { exists (-1); simpl; intuition (lia || discriminate). }
    destruct (Z.eqb_spec (sel_ret r) 0) as [Hz | Hnz].
    { exists 0; simpl; intuition (lia || discriminate). }
    destruct (Z.testbit (signaled r) fd) eqn:Hset.
    + exists 1; simpl; intuition (lia || discriminate).
    + exists 0; simpl; intuition (lia || discriminate).
Qed.

Lemma nfds_in_int (fd : Z) :
  0 <= fd < FD_SETSIZE -> to_int (fd + 1) = fd + 1.
Proof.
  intros Hfd; apply to_int_id.
  unfold in_int, INT_MIN, INT_MAX, FD_SETSIZE in *; lia.
Qed.

(** C5. For a descriptor within the bounds of an [fd_set]
    ([0 <= fd < FD_SETSIZE]; the source tests no bound, and outside them
    [FD_SET] is undefined), the readiness probes [wait_write] and
    [wait_read] issue exactly one [select] call, with [fd + 1] as the
    number of descriptors and the set holding [fd] alone.  Its timeout is
    the null pointer for a negative [wait], zero seconds and zero
    microseconds for [wait = 0], and for [wait = T > 0] a seconds and
    microseconds pair worth exactly [T] milliseconds.  The result is -1
    exactly when [select] fails, 0 when it reports no descriptor, and 1
    when it reports descriptors and [fd] is in the set it left. *)
Theorem C5_readiness_probe (K : Kernel) (w : World K) (fd wait : Z) :
  0 <= fd < FD_SETSIZE ->
  exists (tmo : option timeval) (set : fd_set),
    (wait < 0 -> tmo = None) /\
    (wait = 0 -> tmo = Some {| tv_sec := 0; tv_usec := 0 |}) /\
    (0 < wait ->
     exists tv, tmo = Some tv /\ timeval_us tv = wait * 1000 /\
                0 <= tv_sec tv /\ 0 <= tv_usec tv < 1000000) /\
    FD_SET fd FD_ZERO = Some set /\
    0 <= set < 2 ^ FD_SETSIZE /\
    (forall x, 0 <= x < FD_SETSIZE -> FD_ISSET x set = Some (x =? fd)) /\
    probe_outcome K w (ipc.wait_write fd wait) fd
      (fd + 1) None (Some set) None tmo sel_writefds /\
    probe_outcome K w (ipc.wait_read fd wait) fd
      (fd + 1) (Some set) None None tmo sel_readfds.
Proof.
  intros Hfd.
  destruct (FD_SET_singleton fd Hfd) as (set & Hset & Hbound & Honly).
  destruct (select_timeout_cases wait) as (Hneg & Hzero & Hpos).
  eexists; exists set.
  split; [exact Hneg | ].
  split; [exact Hzero | ].
  split; [exact Hpos | ].
  split; [exact Hset | ].
  split; [exact Hbound | ].
  split; [exact Honly | ].
  unfold ipc.wait_write, ipc.wait_read.
  rewrite Hset, (nfds_in_int fd Hfd).
  split; apply probe_outcome_intro; exact Hfd.
Qed.

(** A poll ([wait = 0]) of descriptor 3 on the kernel where everything is
    ready answers 1 after one [select] with a zero timeout. *)
Lemma C5_readiness_probe_witness :
  run ready_kernel (ipc.wait_write 3 0) tt =
  (Returned 1,
   [SysSelect 4 None (Some 8) None (Some {| tv_sec := 0; tv_usec := 0 |})],
   tt).
Proof.
  assert (Hfd : 0 <= 3 < FD_SETSIZE) by (unfold FD_SETSIZE; lia).
  destruct (C5_readiness_probe ready_kernel tt 3 0 Hfd)
    as (tmo & set & _ & Hzero & _ & Hset & _ & _ & Hw & _).
  rewrite (Hzero eq_refl) in Hw.
  injection Hset as <-.
  destruct Hw as [_ Hw].
  destruct (Hw (ready_answer
                  (SysSelect 4 None (Some 8) None
                     (Some {| tv_sec := 0; tv_usec := 0 |}))) tt eq_refl)
    as (v & Hrun & _ & _ & H1).
  rewrite Hrun.
  replace v with 1; [reflexivity | ].
  symmetry; apply H1; split; [simpl; lia | reflexivity].
Defined.

(** ** Guarded transfers *)

Lemma run_probe_returned (K : Kernel) (w : World K) (fd nfds : Z)
      (rs ws es : option fd_set) (tmo : option timeval)
      (signaled : select_result -> fd_set) (p : Z) (t : trace)
      (w1 : World K) :
  run K (r <- call (SysSelect nfds rs ws es tmo) ;;
         if sel_ret r <? 0 then Ret (-1)
         else if sel_ret r =? 0 then Ret 0
         else match FD_ISSET fd (signaled r) with
              | Some true => Ret 1
              | Some false => Ret 0
              | None => Undef
              end) w = (Returned p, t, w1) ->
  (p = -1 \/ p = 0 \/ p = 1) /\ t = [SysSelect nfds rs ws es tmo].
Proof.
  simpl.
  destruct (sys K (SysSelect nfds rs ws es tmo) w) as [[r w'] | ];
    [ | discriminate].
  destruct (sel_ret r <? 0); [intros [= <- <- <-]; auto | ].
  destruct (sel_ret r =? 0); [intros [= <- <- <-]; auto | ].
  destruct (FD_ISSET fd (signaled r)) as [[ | ] | ];
    [intros [= <- <- <-]; auto | intros [= <- <- <-]; auto | discriminate].
Qed.

Lemma guarded_outcome_intro (K : Kernel) (w : World K) (probe : prog Z)
      (io : syscall) (answer : resp io -> Z) :
  (forall p t w1,
      run K probe w = (Returned p, t, w1) ->
      (p = -1 \/ p = 0 \/ p = 1) /\
      exists nfds rs ws es tmo, t = [SysSelect nfds rs ws es tmo]) ->
  guarded_outcome K w probe
    (ret <- probe ;;
     if ret =? 1 then n <- call io ;; Ret (to_int (answer n))
     else if ret <? 0 then Ret (-1)
     else Ret 0)
    io answer.
Proof.
  intros Hprobe p t w1 Hrun.
  destruct (Hprobe p t w1 Hrun) as [Hp Ht].
  split; [exact Hp | ].
  split; [exact Ht | ].
  rewrite run_bind, Hrun.
  split; [ | split].
  - intros ->; simpl; rewrite app_nil_r; reflexivity.
  - intros ->; simpl; rewrite app_nil_r; reflexivity.
  - intros ->; simpl; split.
    + intros ->; reflexivity.
    + intros n w2 ->; split; [reflexivity | apply to_int_id].
Qed.

(** C1. [ipc::write] probes first ([wait_write], one [select] under the
    caller's timeout) and decides on the probe's result: -1 gives -1, 0
    gives 0, both without a further call; 1 gives exactly one [::write]
    call on the same descriptor, buffer and length, whose result is
    returned (converted to the [int] return type, hence unchanged whenever
    it fits an [int], the failure value -1 included).  [ipc::read] does the
    same with [wait_read] and [::read]. *)
Theorem C1_guarded_transfer (K : Kernel) (w : World K)
        (fd : Z) (data : ptr) (len wait : Z) :
  guarded_outcome K w (ipc.wait_write fd wait) (ipc.write fd data len wait)
    (SysWrite fd data len) (fun n => n) /\
  guarded_outcome K w (ipc.wait_read fd wait) (ipc.read fd data len wait)
    (SysRead fd data len) (fun n => n).
Proof.
  split.
  - apply (guarded_outcome_intro K w (ipc.wait_write fd wait)
             (SysWrite fd data len) (fun n => n)).
    intros p t w1 Hrun.
    unfold ipc.wait_write, ipc.wait_read in Hrun.
    destruct (FD_SET fd FD_ZERO) as [set | ]; [ | discriminate Hrun].
    destruct (run_probe_returned _ _ _ _ _ _ _ _ _ _ _ _ Hrun) as [Hp Ht].
    split; [exact Hp | ]; do 5 eexists; exact Ht.
  - apply (guarded_outcome_intro K w (ipc.wait_read fd wait)
             (SysRead fd data len) (fun n => n)).
    intros p t w1 Hrun.
    unfold ipc.wait_write, ipc.wait_read in Hrun.
    destruct (FD_SET fd FD_ZERO) as [set | ]; [ | discriminate Hrun].
    destruct (run_probe_returned _ _ _ _ _ _ _ _ _ _ _ _ Hrun) as [Hp Ht].
    split; [exact Hp | ]; do 5 eexists; exact Ht.
Qed.

(** Writing 11 bytes to the ready descriptor 4 with a 3000 ms timeout:
    one [select], one [write], result 11. *)
Lemma C1_guarded_transfer_witness :
  run ready_kernel (ipc.write 4 0 11 3000) tt =
  (Returned 11,
   [SysSelect 5 None (Some 16) None
      (Some {| tv_sec := 3; tv_usec := 0 |});
    SysWrite 4 0 11],
   tt).
Proof.
  destruct (C1_guarded_transfer ready_kernel tt 4 0 11 3000) as [Hw _].
  destruct (Hw 1 [SysSelect 5 None (Some 16) None
                    (Some {| tv_sec := 3; tv_usec := 0 |})] tt eq_refl)
    as (_ & _ & _ & _ & H1).
  destruct (H1 eq_refl) as [_ Hio].
  destruct (Hio 11 tt eq_refl) as [Hrun _].
  exact Hrun.
Defined.

(** ** Handles that are closed or were never opened *)

Lemma Pipe_close_r_state (K : Kernel) (w : World K) p p' t w' :
  run K (Pipe.close_r p) w = (Returned p', t, w') ->
  p' = {| Pipe.pipe_0 := IPC_INVALID_FD; Pipe.pipe_1 := Pipe.pipe_1 p |}.
Proof.
  unfold Pipe.close_r; intros H; run_inv H; congruence.
Qed.

Lemma Pipe_close_w_state (K : Kernel) (w : World K) p p' t w' :
  run K (Pipe.close_w p) w = (Returned p', t, w') ->
  p' = {| Pipe.pipe_0 := Pipe.pipe_0 p; Pipe.pipe_1 := IPC_INVALID_FD |}.
Proof.
  unfold Pipe.close_w; intros H; run_inv H; congruence.
Qed.

Lemma Pipe_close_state (K : Kernel) (w : World K) p p' t w' :
  run K (Pipe.close p) w = (Returned p', t, w') ->
  p' = {| Pipe.pipe_0 := IPC_INVALID_FD; Pipe.pipe_1 := IPC_INVALID_FD |}.
Proof.
  unfold Pipe.close; rewrite run_bind; intros H.
  destruct (run K (Pipe.close_w p) w) as [[[p1 | e | | ] t1] w1] eqn:Hw;
    try discriminate H.
  apply Pipe_close_w_state in Hw; subst p1.
  destruct (run K (Pipe.close_r _) w1) as [[o t2] w2] eqn:Hr.
  injection H as -> _ _.
  apply Pipe_close_r_state in Hr; exact Hr.
Qed.

Lemma Fifo_new_state (P : Platform) (K : Kernel) (w : World K)
      path mode f t w' :
  run K (Fifo.new path mode) w = (Returned f, t, w') ->
  f = {| Fifo.path_ := path; Fifo.fd_ := IPC_INVALID_FD |}.
Proof.
  unfold Fifo.new; intros H; run_inv H; congruence.
Qed.

Lemma Fifo_close_state (K : Kernel) (w : World K) f f' t w' :
  run K (Fifo.close f) w = (Returned f', t, w') ->
  Fifo.fd_ f' < 0 /\ Fifo.path_ f' = Fifo.path_ f /\
  (Fifo.fd_ f < 0 -> f' = f).
Proof.
  unfold Fifo.close; intros H; run_inv H; bools.
  - injection H as <- _ _; simpl; unfold IPC_INVALID_FD.
    repeat split; intros; try reflexivity; lia.
  - injection H as <- _ _; repeat split; intros; try reflexivity; lia.
Qed.

Lemma PosixMsgQueue_close_state (K : Kernel) (w : World K) q q' t w' :
  run K (PosixMsgQueue.close q) w = (Returned q', t, w') ->
  PosixMsgQueue.fd_ q' < 0 /\
  PosixMsgQueue.path_ q' = PosixMsgQueue.path_ q /\
  PosixMsgQueue.maxmsg_ q' = PosixMsgQueue.maxmsg_ q /\
  (PosixMsgQueue.fd_ q < 0 -> q' = q).
Proof.
  unfold PosixMsgQueue.close; intros H; run_inv H; bools.
  - injection H as <- _ _; simpl; unfold IPC_INVALID_FD.
    repeat split; intros; try reflexivity; lia.
  - injection H as <- _ _; repeat split; intros; try reflexivity; lia.
Qed.

Lemma PosixMsgQueue_destroy_state (K : Kernel) (w : World K) q q' t w' :
  run K (PosixMsgQueue.destroy q) w = (Returned q', t, w') ->
  PosixMsgQueue.fd_ q' < 0 /\
  PosixMsgQueue.path_ q' = PosixMsgQueue.path_ q /\
  PosixMsgQueue.maxmsg_ q' = PosixMsgQueue.maxmsg_ q.
Proof.
  unfold PosixMsgQueue.destroy; rewrite run_bind; intros H.
  destruct (run K (PosixMsgQueue.close q) w) as [[[q1 | e | | ] t1] w1] eqn:Hc;
    try discriminate H.
  apply PosixMsgQueue_close_state in Hc.
  run_inv H. injection H as <- _ _; tauto.
Qed.

Lemma Pipe_read_invalid p :
  Pipe.pipe_0 p < 0 -> refuses Pipe.read p.
Proof.
  intros Hfd K w data len wait; unfold Pipe.read.
  apply Z.ltb_lt in Hfd; rewrite Hfd; reflexivity.
Qed.

Lemma Pipe_write_invalid p :
  Pipe.pipe_1 p < 0 -> refuses Pipe.write p.
Proof.
  intros Hfd K w data len wait; unfold Pipe.write.
  apply Z.ltb_lt in Hfd; rewrite Hfd; reflexivity.
Qed.

Lemma Fifo_io_invalid f :
  Fifo.fd_ f < 0 -> refuses Fifo.read f /\ refuses Fifo.write f.
Proof.
  intros Hfd; apply Z.ltb_lt in Hfd.
  split; intros K w data len wait; unfold Fifo.read, Fifo.write;
    rewrite Hfd; reflexivity.
Qed.

Lemma PosixMsgQueue_io_invalid (P : Platform) q :
  PosixMsgQueue.fd_ q < 0 ->
  refuses PosixMsgQueue.read q /\ refuses PosixMsgQueue.write q.
Proof.
  intros Hfd; apply Z.ltb_lt in Hfd.
  split; intros K w data len wait;
    unfold PosixMsgQueue.read, PosixMsgQueue.write;
    rewrite Hfd; reflexivity.
Qed.

(** C7. On a handle that was closed or never opened, [read] and [write]
    of [Pipe], [Fifo] and [PosixMsgQueue] return -1 in every kernel and
    world, with an empty list of calls: a closed read end refuses [read],
    a closed write end refuses [write], a closed pipe both; a [Fifo] just
    constructed (not yet opened) or closed refuses both; a closed or
    destroyed queue refuses both. *)
Theorem C7_invalid_handle (P : Platform) :
  (forall p p', reached_by (Pipe.close_r p) p' -> refuses Pipe.read p') /\
  (forall p p', reached_by (Pipe.close_w p) p' -> refuses Pipe.write p') /\
  (forall p p', reached_by (Pipe.close p) p' ->
                refuses Pipe.read p' /\ refuses Pipe.write p') /\
  (forall path mode f, reached_by (Fifo.new path mode) f ->
                       refuses Fifo.read f /\ refuses Fifo.write f) /\
  (forall f f', reached_by (Fifo.close f) f' ->
                refuses Fifo.read f' /\ refuses Fifo.write f') /\
  (forall q q', reached_by (PosixMsgQueue.close q) q' ->
                refuses PosixMsgQueue.read q' /\
                refuses PosixMsgQueue.write q') /\
  (forall q q', reached_by (PosixMsgQueue.destroy q) q' ->
                refuses PosixMsgQueue.read q' /\
                refuses PosixMsgQueue.write q').
Proof.
  repeat split; intros; match goal with
                        | H : reached_by _ _ |- _ =>
                            destruct H as (K & w & t & w' & H)
                        end.
  - apply Pipe_close_r_state in H; subst.
    apply Pipe_read_invalid; simpl; unfold IPC_INVALID_FD; lia.
  - apply Pipe_close_w_state in H; subst.
    apply Pipe_write_invalid; simpl; unfold IPC_INVALID_FD; lia.
  - apply Pipe_close_state in H; subst.
    apply Pipe_read_invalid; simpl; unfold IPC_INVALID_FD; lia.
  - apply Pipe_close_state in H; subst.
    apply Pipe_write_invalid; simpl; unfold IPC_INVALID_FD; lia.
  - apply Fifo_new_state in H; subst.
    apply Fifo_io_invalid; simpl; unfold IPC_INVALID_FD; lia.
  - apply Fifo_new_state in H; subst.
    apply Fifo_io_invalid; simpl; unfold IPC_INVALID_FD; lia.
  - apply Fifo_close_state in H; apply Fifo_io_invalid; tauto.
  - apply Fifo_close_state in H; apply Fifo_io_invalid; tauto.
  - apply PosixMsgQueue_close_state in H.
    apply (PosixMsgQueue_io_invalid P); tauto.
  - apply PosixMsgQueue_close_state in H.
    apply (PosixMsgQueue_io_invalid P); tauto.
  - apply PosixMsgQueue_destroy_state in H.
    apply (PosixMsgQueue_io_invalid P); tauto.
  - apply PosixMsgQueue_destroy_state in H.
    apply (PosixMsgQueue_io_invalid P); tauto.
Qed.

(** A [Fifo] constructed on the ready kernel and never opened: a blocking
    [read] returns -1 at once. *)
Lemma C7_invalid_handle_witness :
  run ready_kernel
      (Fifo.read {| Fifo.path_ := "/tmp/fifo"; Fifo.fd_ := -1 |} 0 512 (-1))
      tt
  = (Returned (-1), [], tt).
Proof.
  destruct (C7_invalid_handle linux_glibc) as (_ & _ & _ & Hnew & _).
  apply (Hnew "/tmp/fifo"%string "r"%char).
  exists ready_kernel, tt, [SysMkfifo "/tmp/fifo" 0], tt.
  reflexivity.
Defined.

(** ** Releasing twice *)

Lemma release_quiet_idempotent (S : Type) (f : S -> prog S) :
  release_quiet f -> release_idempotent f.
Proof.
  intros Hq K w s s1 t1 w1 Hrun K' w'.
  unfold result_of; rewrite (Hq K w s s1 t1 w1 Hrun K' w'); simpl.
  repeat split; congruence.
Qed.

(** The second call returns the same state, or is left waiting by a kernel
    that does not answer. *)
Lemma release_idempotent_intro (S : Type) (f : S -> prog S) :
  (forall K w s s1 t1 w1,
      run K (f s) w = (Returned s1, t1, w1) ->
      forall K' (w' : World K'),
        result_of K' (f s1) w' = Returned s1 \/
        (result_of K' (f s1) w' = Blocked /\ ~ answers_all K')) ->
  release_idempotent f.
Proof.
  intros Hc K w s s1 t1 w1 Hrun K' w'.
  destruct (Hc K w s s1 t1 w1 Hrun K' w') as [Hr | [Hb Hna]].
  - rewrite Hr; repeat split; congruence.
  - rewrite Hb; repeat split; try congruence.
    intros Ha; contradiction.
Qed.

Lemma Pipe_close_r_quiet : release_quiet Pipe.close_r.
Proof.
  intros K w s s1 t1 w1 Hrun K' w'.
  apply Pipe_close_r_state in Hrun; subst s1; reflexivity.
Qed.

Lemma Pipe_close_w_quiet : release_quiet Pipe.close_w.
Proof.
  intros K w s s1 t1 w1 Hrun K' w'.
  apply Pipe_close_w_state in Hrun; subst s1; reflexivity.
Qed.

Lemma Pipe_close_quiet : release_quiet Pipe.close.
Proof.
  intros K w s s1 t1 w1 Hrun K' w'.
  apply Pipe_close_state in Hrun; subst s1; reflexivity.
Qed.

Lemma Fifo_close_quiet : release_quiet Fifo.close.
Proof.
  intros K w s s1 t1 w1 Hrun K' w'.
  apply Fifo_close_state in Hrun; destruct Hrun as (Hfd & _ & _).
  unfold Fifo.close.
  destruct (Z.geb_spec (Fifo.fd_ s1) 0); [lia | reflexivity].
Qed.

Lemma PosixMsgQueue_close_quiet : release_quiet PosixMsgQueue.close.
Proof.
  intros K w s s1 t1 w1 Hrun K' w'.
  apply PosixMsgQueue_close_state in Hrun; destruct Hrun as (Hfd & _).
  unfold PosixMsgQueue.close.
  destruct (Z.geb_spec (PosixMsgQueue.fd_ s1) 0); [lia | reflexivity].
Qed.

Lemma NameSem_close_state (K : Kernel) (w : World K) s s1 t w' :
  run K (NameSem.close s) w = (Returned s1, t, w') ->
  NameSem.sem_ s1 = nullptr /\ NameSem.name_ s1 = NameSem.name_ s.
Proof.
  unfold NameSem.close; intros H; run_inv H; bools.
  - injection H as <- _ _; split; reflexivity.
  - injection H as <- _ _; split; [assumption | reflexivity].
Qed.

Lemma NameSem_close_quiet : release_quiet NameSem.close.
Proof.
  intros K w s s1 t1 w1 Hrun K' w'.
  apply NameSem_close_state in Hrun; destruct Hrun as [Hnull _].
  unfold NameSem.close; rewrite Hnull; reflexivity.
Qed.

Lemma answers_all_not_none (K : Kernel) (c : syscall) (w : World K) :
  sys K c w = None -> ~ answers_all K.
Proof.
  intros Hnone Ha; exact (Ha c w Hnone).
Qed.

Lemma PosixMsgQueue_destroy_idempotent :
  release_idempotent PosixMsgQueue.destroy.
Proof.
  apply release_idempotent_intro; intros K w s s1 t1 w1 Hrun K' w'.
  apply PosixMsgQueue_destroy_state in Hrun; destruct Hrun as (Hfd & _).
  unfold result_of, PosixMsgQueue.destroy, PosixMsgQueue.close.
  destruct (Z.geb_spec (PosixMsgQueue.fd_ s1) 0); [lia | simpl].
  destruct (sys K' (SysMqUnlink (PosixMsgQueue.path_ s1)) w')
    as [[r w2] | ] eqn:Hsys; simpl.
  - left; reflexivity.
  - right; split; [reflexivity | exact (answers_all_not_none _ _ _ Hsys)].
Qed.

Lemma NameSem_unlink_idempotent : release_idempotent NameSem.unlink.
Proof.
  apply release_idempotent_intro; intros K w s s1 t1 w1 Hrun K' w'.
  assert (Hnull : NameSem.sem_ s1 = nullptr).
  { unfold NameSem.unlink in Hrun; rewrite run_bind in Hrun.
    destruct (run K (NameSem.close s) w) as [[[s' | e | | ] t] w2] eqn:Hc;
      try discriminate Hrun.
    apply NameSem_close_state in Hc; destruct Hc as [Hc _].
    run_inv Hrun; injection Hrun as <- _ _; exact Hc. }
  unfold result_of, NameSem.unlink, NameSem.close; rewrite Hnull; simpl.
  destruct (sys K' (SysSemUnlink (NameSem.name_ s1)) w')
    as [[r w2] | ] eqn:Hsys; simpl.
  - left; reflexivity.
  - right; split; [reflexivity | exact (answers_all_not_none _ _ _ Hsys)].
Qed.

Lemma Sem_close_idempotent : release_idempotent Sem.close.
Proof.
  apply release_idempotent_intro; intros K w s s1 t1 w1 Hrun K' w'.
  assert (Hz : s1 = {| Sem.sem_ := sem_zeroed |}).
  { unfold Sem.close in Hrun; run_inv Hrun; congruence. }
  subst s1; unfold result_of, Sem.close; simpl.
  destruct (sys K' (SysSemDestroy sem_zeroed) w') as [[r w2] | ] eqn:Hsys;
    simpl.
  - left; reflexivity.
  - right; split; [reflexivity | exact (answers_all_not_none _ _ _ Hsys)].
Qed.

Lemma PosixShareMem_unmap_run (K : Kernel) (w : World K) m :
  result_of K (PosixShareMem.unmap m) w = Returned m \/
  (result_of K (PosixShareMem.unmap m) w = Blocked /\ ~ answers_all K).
Proof.
  unfold result_of, PosixShareMem.unmap.
  destruct (negb (PosixShareMem.addr_ m =? nullptr)); simpl.
  - destruct (sys K (SysMunmap _ _) w) as [[r w2] | ] eqn:Hsys; simpl.
    + left; reflexivity.
    + right; split; [reflexivity | exact (answers_all_not_none _ _ _ Hsys)].
  - left; reflexivity.
Qed.

Lemma PosixShareMem_destroy_run (K : Kernel) (w : World K) m :
  result_of K (PosixShareMem.destroy m) w = Returned m \/
  (result_of K (PosixShareMem.destroy m) w = Blocked /\ ~ answers_all K).
Proof.
  unfold result_of, PosixShareMem.destroy; rewrite run_bind.
  destruct (PosixShareMem_unmap_run K w m) as [Hr | [Hb Hna]];
    unfold result_of in *.
  - destruct (run K (PosixShareMem.unmap m) w) as [[o t] w1].
    simpl in Hr; subst o.
    destruct (PosixShareMem.name_ m) eqn:Hname; simpl.
    + left; reflexivity.
    + destruct (sys K (SysShmUnlink _) w1) as [[r w2] | ] eqn:Hsys; simpl.
      * left; reflexivity.
      * right; split;
          [reflexivity | exact (answers_all_not_none _ _ _ Hsys)].
  - destruct (run K (PosixShareMem.unmap m) w) as [[o t] w1].
    simpl in Hb; subst o; simpl.
    right; split; [reflexivity | exact Hna].
Qed.

Lemma PosixShareMem_unmap_same (K : Kernel) (w : World K) m m1 t w1 :
  run K (PosixShareMem.unmap m) w = (Returned m1, t, w1) -> m1 = m.
Proof.
  intros H.
  destruct (PosixShareMem_unmap_run K w m) as [Hr | [Hb _]];
    unfold result_of in *; rewrite H in *; simpl in *; congruence.
Qed.

Lemma PosixShareMem_destroy_same (K : Kernel) (w : World K) m m1 t w1 :
  run K (PosixShareMem.destroy m) w = (Returned m1, t, w1) -> m1 = m.
Proof.
  intros H.
  destruct (PosixShareMem_destroy_run K w m) as [Hr | [Hb _]];
    unfold result_of in *; rewrite H in *; simpl in *; congruence.
Qed.

(** C6. Every release operation is idempotent: called again on the state
    its first call left, it never throws, leaves that state unchanged, and
    returns whenever the kernel answers its calls.  This holds for
    [close] of [Pipe] (and [close_r], [close_w]), [Fifo], [PosixMsgQueue],
    [NameSem] and [Sem], for [destroy] of [PosixMsgQueue] and
    [PosixShareMem], for [NameSem::unlink] and for
    [PosixShareMem::unmap].  For the guarded closes ([Pipe], [Fifo],
    [PosixMsgQueue], [NameSem]) the second call issues no call at all. *)
Theorem C6_release_idempotent :
  (release_idempotent Pipe.close /\
   release_idempotent Pipe.close_r /\
   release_idempotent Pipe.close_w /\
   release_idempotent Fifo.close /\
   release_idempotent PosixMsgQueue.close /\
   release_idempotent PosixMsgQueue.destroy /\
   release_idempotent NameSem.close /\
   release_idempotent NameSem.unlink /\
   release_idempotent Sem.close /\
   release_idempotent PosixShareMem.unmap /\
   release_idempotent PosixShareMem.destroy) /\
  (release_quiet Pipe.close /\
   release_quiet Pipe.close_r /\
   release_quiet Pipe.close_w /\
   release_quiet Fifo.close /\
   release_quiet PosixMsgQueue.close /\
   release_quiet NameSem.close).
Proof.
  split.
  - repeat apply conj.
    + apply release_quiet_idempotent, Pipe_close_quiet.
    + apply release_quiet_idempotent, Pipe_close_r_quiet.
    + apply release_quiet_idempotent, Pipe_close_w_quiet.
    + apply release_quiet_idempotent, Fifo_close_quiet.
    + apply release_quiet_idempotent, PosixMsgQueue_close_quiet.
    + apply PosixMsgQueue_destroy_idempotent.
    + apply release_quiet_idempotent, NameSem_close_quiet.
    + apply NameSem_unlink_idempotent.
    + apply Sem_close_idempotent.
    + apply release_idempotent_intro; intros K w s s1 t1 w1 Hrun K' w'.
      apply PosixShareMem_unmap_same in Hrun; subst s1.
      apply PosixShareMem_unmap_run.
    + apply release_idempotent_intro; intros K w s s1 t1 w1 Hrun K' w'.
      apply PosixShareMem_destroy_same in Hrun; subst s1.
      apply PosixShareMem_destroy_run.
  - repeat apply conj.
    + apply Pipe_close_quiet.
    + apply Pipe_close_r_quiet.
    + apply Pipe_close_w_quiet.
    + apply Fifo_close_quiet.
    + apply PosixMsgQueue_close_quiet.
    + apply NameSem_close_quiet.
Qed.

Lemma failing_kernel_answers : answers_all failing_kernel.
Proof.
  intros c w; simpl; discriminate.
Qed.

(** A semaphore with count 1 is closed; closing it again on a kernel that
    answers every call returns the same zeroed state. *)
Lemma C6_release_idempotent_witness :
  result_of failing_kernel (Sem.close {| Sem.sem_ := sem_zeroed |}) tt
  = Returned {| Sem.sem_ := sem_zeroed |}.
Proof.
  destruct C6_release_idempotent
    as [(_ & _ & _ & _ & _ & _ & _ & _ & Hsem & _) _].
  destruct (Hsem ready_kernel tt
              {| Sem.sem_ := {| sem_count := 1; sem_pshared := 0 |} |}
              {| Sem.sem_ := sem_zeroed |}
              [SysSemDestroy {| sem_count := 1; sem_pshared := 0 |}] tt
              eq_refl failing_kernel tt) as (_ & _ & Hret).
  exact (Hret failing_kernel_answers).
Defined.

(** ** Mode characters *)

Lemma trans_mode_invalid (P : Platform) (mode : ascii) :
  ~ In mode mode_chars -> ipc.trans_mode mode = -1.
Proof.
  unfold mode_chars, ipc.trans_mode; simpl; intros Hnot.
  repeat match goal with
         | |- context [Ascii.eqb mode ?c] =>
             destruct (Ascii.eqb_spec mode c) as [-> | _];
             [exfalso; apply Hnot; tauto | ]
         end.
  reflexivity.
Qed.

(** C3. For a character outside [r], [a], [w], [m], [d]: the constructor
    of [Fifo] and of [PosixShareMem] throw [invalid_argument] and
    [Fifo::open] returns false, each with no call issued.  The constructor
    of [PosixMsgQueue] has no such test: it issues [mq_open] with the
    flags -1 that [trans_mode] returned. *)
Theorem C3_mode_rejection (P : Platform) (mode : ascii) :
  ~ In mode mode_chars ->
  (forall K (w : World K) path,
      run K (Fifo.new path mode) w =
      (Thrown (invalid_argument "path or mode error"), [], w)) /\
  (forall K (w : World K) f,
      run K (Fifo.open f mode) w = (Returned (false, f), [], w)) /\
  (forall K (w : World K) name len0,
      run K (PosixShareMem.new name mode len0) w =
      (Thrown (invalid_argument "name or mode error"), [], w)) /\
  (forall K (w : World K) path maxmsg srv,
      calls_of K (PosixMsgQueue.new path mode maxmsg srv) w =
      [SysMqOpen path (-1) 438
         {| mq_flags := 0; mq_maxmsg := 20;
            mq_msgsize := to_long maxmsg; mq_curmsgs := 0 |}]).
Proof.
  intros Hnot; pose proof (trans_mode_invalid P mode Hnot) as Htm.
  repeat apply conj; intros.
  - unfold Fifo.new; rewrite Htm; reflexivity.
  - unfold Fifo.open; rewrite Htm.
    destruct (Fifo.fd_ f >=? 0); reflexivity.
  - unfold PosixShareMem.new; rewrite Htm; reflexivity.
  - unfold calls_of, PosixMsgQueue.new; rewrite Htm; simpl.
    destruct (sys K _ w) as [[r w1] | ]; [ | reflexivity].
    destruct (r <? 0); reflexivity.
Qed.

(** The constructor of [PosixMsgQueue] with the character [x]: [mq_open]
    is called with flags -1. *)
Lemma C3_mode_rejection_witness :
  calls_of ready_kernel
    (PosixMsgQueue.new (P := linux_glibc) "/ipc_test" "x" 8192 false) tt
  = [SysMqOpen "/ipc_test" (-1) 438
       {| mq_flags := 0; mq_maxmsg := 20;
          mq_msgsize := 8192; mq_curmsgs := 0 |}].
Proof.
  assert (Hnot : ~ In "x"%char mode_chars).
  { simpl; intros [H | [H | [H | [H | [H | []]]]]]; discriminate H. }
  destruct (C3_mode_rejection linux_glibc "x" Hnot) as (_ & _ & _ & Hmq).
  exact (Hmq ready_kernel tt "/ipc_test"%string 8192 false).
Defined.

(** ** Message queue transfers *)

Lemma calls_of_call_then (A : Type) (K : Kernel) (w : World K) (c : syscall)
      (k : resp c -> A) :
  calls_of K (r <- call c ;; Ret (k r)) w = [c].
Proof.
  unfold calls_of; simpl.
  destruct (sys K c w) as [[r w1] | ]; reflexivity.
Qed.

Lemma calls_of_send (K : Kernel) (w : World K) (c : syscall)
      (neg : resp c -> bool) (len : Z) :
  calls_of K (r <- call c ;; if neg r then Ret (-1) else Ret (to_int len)) w
  = [c].
Proof.
  unfold calls_of; simpl.
  destruct (sys K c w) as [[r w1] | ]; [ | reflexivity].
  destruct (neg r); reflexivity.
Qed.




(** C10. On an open queue, a read with [0 < len < maxmsg_] issues the
    receive call ([mq_receive] for a negative timeout, [mq_timedreceive]
    otherwise) on the caller's buffer with [maxmsg_] as the length, not
    [len], and returns whatever count the call answers, converted to
    [int]: a count above [len] is passed on as it is. *)
Theorem C10_receive_length (K : Kernel) (w : World K)
        (q : PosixMsgQueue.t) (data : ptr) (len wait : Z) :
  0 <= PosixMsgQueue.fd_ q ->
  0 < len < PosixMsgQueue.maxmsg_ q ->
  (wait < 0 ->
   let c := SysMqReceive (PosixMsgQueue.fd_ q) data
              (PosixMsgQueue.maxmsg_ q) in
   calls_of K (PosixMsgQueue.read q data len wait) w = [c] /\
   (forall (n : Z) (w1 : World K),
       sys K c w = Some (n, w1) ->
       run K (PosixMsgQueue.read q data len wait) w
       = (Returned (to_int n), [c], w1))) /\
  (0 <= wait ->
   exists abs,
     let c := SysMqTimedReceive (PosixMsgQueue.fd_ q) data
                (PosixMsgQueue.maxmsg_ q) abs in
     calls_of K (PosixMsgQueue.read q data len wait) w = [c] /\
     (forall (n : Z) (w1 : World K),
         sys K c w = Some (n, w1) ->
         run K (PosixMsgQueue.read q data len wait) w
         = (Returned (to_int n), [c], w1))).
Proof.
  intros Hfd Hlen; unfold PosixMsgQueue.read.
  destruct (Z.ltb_spec (PosixMsgQueue.fd_ q) 0); [lia | ].
  destruct (Z.gtb_spec len (PosixMsgQueue.maxmsg_ q)); [lia | ].
  split; intros Hwait.
  - destruct (Z.ltb_spec wait 0); [ | lia].
    split; [apply calls_of_call_then | ].
    intros n w1 Hsys; simpl; rewrite Hsys; reflexivity.
  - destruct (Z.ltb_spec wait 0); [lia | ].
    eexists; split; [apply calls_of_call_then | ].
    intros n w1 Hsys; simpl; rewrite Hsys; reflexivity.
Qed.

(** The read of the test program, [mq.read(buf, 11)] with the default
    timeout 0: the receive call is issued with length 8192, and the 8192
    bytes the ready kernel reports are returned as the result. *)
Lemma C10_receive_length_witness :
  exists abs,
    run ready_kernel (PosixMsgQueue.read test_queue 0 11 0) tt
    = (Returned 8192, [SysMqTimedReceive 3 0 8192 abs], tt).
Proof.
  assert (Hfd : 0 <= PosixMsgQueue.fd_ test_queue) by (simpl; lia).
  assert (Hlen : 0 < 11 < PosixMsgQueue.maxmsg_ test_queue) by (simpl; lia).
  destruct (C10_receive_length ready_kernel tt test_queue 0 11 0 Hfd Hlen)
    as [_ Htimed].
  destruct (Htimed ltac:(lia)) as (abs & _ & Hrun).
  exists abs; exact (Hrun 8192 tt eq_refl).
Defined.

(** The claim of a send at the lowest priority fails on Linux with glibc:
    the blocking write of the test queue sends at priority 28, the value of
    the constant [_SC_MQ_PRIO_MAX] there. *)
Lemma C8_counterexample :
  calls_of ready_kernel
    (PosixMsgQueue.write (P := linux_glibc) test_queue 0 11 (-1)) tt
  = [SysMqSend 3 0 11 28] /\
  ~ sends_at_priority ready_kernel
      (PosixMsgQueue.write (P := linux_glibc) test_queue 0 11 (-1)) tt
      MQ_PRIO_LOWEST.
Proof.
  split; [reflexivity | ].
  intros (mqdes & msg & len & Hcalls); discriminate Hcalls.
Qed.

(** C8 (as the code has it). On an open queue, [write] with a negative
    timeout issues exactly one blocking [mq_send] of the caller's buffer
    and length, at the priority given by the constant [_SC_MQ_PRIO_MAX];
    it returns -1 when the send fails, and otherwise [len] converted to
    [int], which is [len] whenever [len] fits an [int]. *)
Theorem C8_blocking_send (P : Platform) (K : Kernel) (w : World K)
        (q : PosixMsgQueue.t) (data : ptr) (len wait : Z) :
  0 <= PosixMsgQueue.fd_ q ->
  wait < 0 ->
  let c := SysMqSend (PosixMsgQueue.fd_ q) data len _SC_MQ_PRIO_MAX in
  sends_at_priority K (PosixMsgQueue.write q data len wait) w
    _SC_MQ_PRIO_MAX /\
  calls_of K (PosixMsgQueue.write q data len wait) w = [c] /\
  (sys K c w = None ->
   result_of K (PosixMsgQueue.write q data len wait) w = Blocked) /\
  (forall (r : Z) (w1 : World K),
      sys K c w = Some (r, w1) ->
      (r < 0 ->
       run K (PosixMsgQueue.write q data len wait) w
       = (Returned (-1), [c], w1)) /\
      (0 <= r ->
       run K (PosixMsgQueue.write q data len wait) w
       = (Returned (to_int len), [c], w1) /\
       (in_int len -> to_int len = len))).
Proof.
  intros Hfd Hwait c; unfold sends_at_priority, PosixMsgQueue.write.
  destruct (Z.ltb_spec (PosixMsgQueue.fd_ q) 0); [lia | ].
  destruct (Z.ltb_spec wait 0); [ | lia].
  assert (Hcalls : calls_of K
            (r <- call c ;; if r <? 0 then Ret (-1) else Ret (to_int len)) w
          = [c])
    by apply (calls_of_send K w c (fun r => r <? 0)).
  repeat apply conj.
  - do 3 eexists; exact Hcalls.
  - exact Hcalls.
  - intros Hsys; unfold result_of; simpl; fold c; rewrite Hsys; reflexivity.
  - intros r w1 Hsys; split; intros Hr; simpl; fold c; rewrite Hsys.
    + destruct (Z.ltb_spec r 0); [reflexivity | lia].
    + destruct (Z.ltb_spec r 0); [lia | ].
      split; [reflexivity | apply to_int_id].
Qed.

(** The blocking write of the test queue on the ready kernel returns 11
    after one [mq_send] at priority 28. *)
Lemma C8_blocking_send_witness :
  run ready_kernel
    (PosixMsgQueue.write (P := linux_glibc) test_queue 0 11 (-1)) tt
  = (Returned 11, [SysMqSend 3 0 11 28], tt).
Proof.
  assert (Hfd : 0 <= PosixMsgQueue.fd_ test_queue) by (simpl; lia).
  assert (Hwait : -1 < 0) by lia.
  destruct (C8_blocking_send linux_glibc ready_kernel tt test_queue 0 11 (-1)
              Hfd Hwait) as (_ & _ & _ & Hans).
  destruct (Hans 0 tt eq_refl) as [_ Hok].
  destruct (Hok ltac:(lia)) as [Hrun _].
  exact Hrun.
Defined.

(** C2. On an open queue, [write] with [wait >= 0] issues exactly one
    [mq_timedsend], and returns -1 when it fails (timeout or error).  The
    deadline it passes is built from [wait] alone: [wait / 1000] seconds
    and [(wait mod 1000) * 1000] nanoseconds after the Epoch.  No clock is
    read; the deadline lies at most [wait] milliseconds after the Epoch and
    is the current time plus [wait] for no current time [now > 0]
    (in nanoseconds since the Epoch). *)
Theorem C2_timed_send_deadline (P : Platform) (K : Kernel) (w : World K)
        (q : PosixMsgQueue.t) (data : ptr) (len wait : Z) :
  0 <= PosixMsgQueue.fd_ q ->
  0 <= wait ->
  exists abs : timespec,
    let c := SysMqTimedSend (PosixMsgQueue.fd_ q) data len
               _SC_MQ_PRIO_MAX abs in
    calls_of K (PosixMsgQueue.write q data len wait) w = [c] /\
    ts_sec abs = wait / 1000 /\
    ts_nsec abs = (wait mod 1000) * 1000 /\
    0 <= timespec_ns abs <= wait * 1000000 /\
    (forall now : Z, 0 < now -> timespec_ns abs <> now + wait * 1000000) /\
    (forall (r : Z) (w1 : World K),
        sys K c w = Some (r, w1) ->
        (r < 0 ->
         run K (PosixMsgQueue.write q data len wait) w
         = (Returned (-1), [c], w1)) /\
        (0 <= r ->
         run K (PosixMsgQueue.write q data len wait) w
         = (Returned (to_int len), [c], w1))).
Proof.
  intros Hfd Hwait; unfold PosixMsgQueue.write.
  destruct (Z.ltb_spec (PosixMsgQueue.fd_ q) 0); [lia | ].
  destruct (Z.ltb_spec wait 0); [lia | ].
  destruct (ms_split wait Hwait) as (Hq & Hr & Heq).
  eexists; cbv zeta; repeat apply conj.
  - apply (calls_of_send K w (SysMqTimedSend _ _ _ _ _) (fun r => r <? 0)).
  - simpl; apply Z.quot_div_nonneg; lia.
  - simpl; rewrite Z.rem_mod_nonneg by lia; reflexivity.
  - unfold timespec_ns; simpl; lia.
  - unfold timespec_ns; simpl; lia.
  - intros now Hnow; unfold timespec_ns; simpl; lia.
  - intros r w1 Hsys; split; intros Hr'; simpl; rewrite Hsys.
    + destruct (Z.ltb_spec r 0); [reflexivity | lia].
    + destruct (Z.ltb_spec r 0); [lia | reflexivity].
Qed.

(** A write to the test queue with a timeout of 1500 ms: the deadline
    handed to [mq_timedsend] is 1 s and 500000 ns after the Epoch. *)
Lemma C2_timed_send_deadline_witness :
  calls_of ready_kernel
    (PosixMsgQueue.write (P := linux_glibc) test_queue 0 11 1500) tt
  = [SysMqTimedSend 3 0 11 28 {| ts_sec := 1; ts_nsec := 500000 |}].
Proof.
  assert (Hfd : 0 <= PosixMsgQueue.fd_ test_queue) by (simpl; lia).
  assert (Hwait : 0 <= 1500) by lia.
  destruct (C2_timed_send_deadline linux_glibc ready_kernel tt test_queue
              0 11 1500 Hfd Hwait) as (abs & Hcalls & Hs & Hn & _).
  destruct abs as [s n]; simpl in Hs, Hn; subst s n.
  exact Hcalls.
Defined.

(** ** The private semaphore *)

Lemma posix_sem_answers (K : Kernel) (c : syscall) (w : World K)
      (r : resp c) :
  implements_posix_sem K ->
  posix_sem c = Some (Some r) ->
  exists w', sys K c w = Some (r, w').
Proof.
  intros HK Hc; specialize (HK c w); rewrite Hc in HK; exact HK.
Qed.

(** C9. On a kernel with POSIX semaphores, a [Sem] is constructed with the
    count 1 (for either value of [shared]); the first [sem_p(true)] returns
    true without waiting; a following [sem_p(false)] returns false; after
    [sem_v] (which returns true) a further [sem_p], blocking or not,
    returns true. *)
Theorem C9_semaphore_protocol (K : Kernel) (w : World K) (shared : bool) :
  implements_posix_sem K ->
  exists s0 t0 w0,
    run K (Sem.new shared) w = (Returned s0, t0, w0) /\
    sem_count (Sem.sem_ s0) = 1 /\
    exists s1 t1 w1,
      run K (Sem.sem_p s0 true) w0 = (Returned (true, s1), t1, w1) /\
      exists s2 t2 w2,
        run K (Sem.sem_p s1 false) w1 = (Returned (false, s2), t2, w2) /\
        exists s3 t3 w3,
          run K (Sem.sem_v s2) w2 = (Returned (true, s3), t3, w3) /\
          forall block : bool,
          exists s4 t4 w4,
            run K (Sem.sem_p s3 block) w3 = (Returned (true, s4), t4, w4).
Proof.
  intros HK.
  pose (sem1 := {| sem_count := 1;
                   sem_pshared := if shared then 1 else 0 |}).
  pose (sem0 := sem_add sem1 (-1)).
  destruct (posix_sem_answers K
              (SysSemInit sem_zeroed (if shared then 1 else 0) 1) w
              (0, sem1) HK eq_refl) as [w0 H0].
  exists {| Sem.sem_ := sem1 |}, [SysSemInit sem_zeroed
                                    (if shared then 1 else 0) 1], w0.
  split; [unfold Sem.new; simpl; rewrite H0; reflexivity | ].
  split; [reflexivity | ].
  destruct (posix_sem_answers K (SysSemWait sem1) w0 (0, sem0) HK eq_refl)
    as [w1 H1].
  exists {| Sem.sem_ := sem0 |}, [SysSemWait sem1], w1.
  split; [unfold Sem.sem_p; simpl; rewrite H1; reflexivity | ].
  destruct (posix_sem_answers K (SysSemTryWait sem0) w1 (-1, sem0) HK
              eq_refl) as [w2 H2].
  exists {| Sem.sem_ := sem0 |}, [SysSemTryWait sem0], w2.
  split; [unfold Sem.sem_p; simpl; rewrite H2; reflexivity | ].
  destruct (posix_sem_answers K (SysSemPost sem0) w2 (0, sem_add sem0 1) HK
              eq_refl) as [w3 H3].
  exists {| Sem.sem_ := sem_add sem0 1 |}, [SysSemPost sem0], w3.
  split; [unfold Sem.sem_v; simpl; rewrite H3; reflexivity | ].
  intros [ | ].
  - destruct (posix_sem_answers K (SysSemWait (sem_add sem0 1)) w3
                (0, sem_add (sem_add sem0 1) (-1)) HK eq_refl) as [w4 H4].
    do 3 eexists; unfold Sem.sem_p; simpl; rewrite H4; reflexivity.
  - destruct (posix_sem_answers K (SysSemTryWait (sem_add sem0 1)) w3
                (0, sem_add (sem_add sem0 1) (-1)) HK eq_refl) as [w4 H4].
    do 3 eexists; unfold Sem.sem_p; simpl; rewrite H4; reflexivity.
Qed.

Lemma ready_kernel_posix_sem : implements_posix_sem ready_kernel.
Proof.
  intros c w; simpl.
  destruct (posix_sem c) as [[r | ] | ]; [exists tt | | ];
    reflexivity || exact I.
Qed.

(** The protocol on the ready kernel, for a semaphore that is not shared:
    constructed with count 1, taken, refused, released, taken again. *)
Lemma C9_semaphore_protocol_witness :
  exists s0 s1 s2 s3 s4 t0 t1 t2 t3 t4,
    run ready_kernel (Sem.new false) tt = (Returned s0, t0, tt) /\
    run ready_kernel (Sem.sem_p s0 true) tt = (Returned (true, s1), t1, tt) /\
    run ready_kernel (Sem.sem_p s1 false) tt
      = (Returned (false, s2), t2, tt) /\
    run ready_kernel (Sem.sem_v s2) tt = (Returned (true, s3), t3, tt) /\
    run ready_kernel (Sem.sem_p s3 true) tt = (Returned (true, s4), t4, tt).
Proof.
  destruct (C9_semaphore_protocol ready_kernel tt false
              ready_kernel_posix_sem)
    as (s0 & t0 & [] & H0 & _ & s1 & t1 & [] & H1 & s2 & t2 & [] & H2
        & s3 & t3 & [] & H3 & H4).
  destruct (H4 true) as (s4 & t4 & [] & H5).
  exists s0, s1, s2, s3, s4, t0, t1, t2, t3, t4.
  repeat apply conj; assumption.
Defined.

(** * Further properties of the code *)

(** ** Mode characters and guarded transfers *)

Lemma trans_mode_valid_nonneg (P : Platform) (mode : ascii) :
  flags_nonneg P -> In mode mode_chars -> 0 <= ipc.trans_mode mode.
Proof.
  intros (Hr & Hw & Hrw & Hc & Ht & Ha) Hin.
  unfold mode_chars in Hin; simpl in Hin.
  destruct Hin as [<- | [<- | [<- | [<- | [<- | []]]]]];
    unfold ipc.trans_mode; simpl; rewrite ?Z.lor_nonneg; tauto.
Qed.

(** X1. When the open flags of the platform are non-negative,
    [trans_mode] returns a non-negative flag word exactly for the five
    characters [r], [a], [w], [m], [d], and -1 for every other one. *)
Theorem X1_trans_mode_accepts (P : Platform) (mode : ascii) :
  flags_nonneg P ->
  (0 <= ipc.trans_mode mode <-> In mode mode_chars) /\
  (~ In mode mode_chars -> ipc.trans_mode mode = -1).
Proof.
  intros Hnn; split; [split | ].
  - intros Hge.
    destruct (in_dec ascii_dec mode mode_chars) as [Hin | Hnot];
      [exact Hin | ].
    rewrite (trans_mode_invalid P mode Hnot) in Hge; lia.
  - apply trans_mode_valid_nonneg; exact Hnn.
  - apply trans_mode_invalid.
Qed.

Lemma linux_flags_nonneg : flags_nonneg linux_glibc.
Proof.
  unfold flags_nonneg; simpl; lia.
Qed.

(** On Linux the character [d] is accepted and [x] is refused. *)
Lemma X1_trans_mode_accepts_witness :
  0 <= ipc.trans_mode (P := linux_glibc) "d" /\
  ipc.trans_mode (P := linux_glibc) "x" = -1.
Proof.
  destruct (X1_trans_mode_accepts linux_glibc "d" linux_flags_nonneg)
    as [[_ Hd] _].
  destruct (X1_trans_mode_accepts linux_glibc "x" linux_flags_nonneg)
    as [_ Hx].
  split.
  - apply Hd; simpl; tauto.
  - apply Hx; simpl; intros [H | [H | [H | [H | [H | []]]]]]; discriminate H.
Defined.

Lemma transfer_calls (K : Kernel) (w : World K) (fd nfds : Z)
      (rs ws es : option fd_set) (tmo : option timeval)
      (signaled : select_result -> fd_set) (io : syscall)
      (answer : resp io -> Z) :
  0 <= fd < FD_SETSIZE ->
  let sel := SysSelect nfds rs ws es tmo in
  let probe :=
    (r <- call sel ;;
     if sel_ret r <? 0 then Ret (-1)
     else if sel_ret r =? 0 then Ret 0
     else match FD_ISSET fd (signaled r) with
          | Some true => Ret 1
          | Some false => Ret 0
          | None => Undef
          end) in
  let guarded :=
    (ret <- probe ;;
     if ret =? 1 then n <- call io ;; Ret (to_int (answer n))
     else if ret <? 0 then Ret (-1)
     else Ret 0) in
  (calls_of K guarded w = [sel] \/ calls_of K guarded w = [sel; io]) /\
  (calls_of K guarded w = [sel; io] <->
   exists (r : select_result) (w1 : World K),
     sys K sel w = Some (r, w1) /\
     0 < sel_ret r /\ FD_ISSET fd (signaled r) = Some true).
Proof.
  intros Hfd sel probe guarded; subst guarded probe; unfold calls_of; simpl.
  fold sel.
  destruct (sys K sel w) as [[r w1] | ] eqn:Hsel; simpl.
  - rewrite (FD_ISSET_in_range fd (signaled r) Hfd).
    destruct (Z.ltb_spec (sel_ret r) 0) as [Hneg | Hnn]; simpl.
    { split; [left; reflexivity | ].
      split; [discriminate | intros (r' & w' & [= <- <-] & Hpos & _); lia]. }
    destruct (Z.eqb_spec (sel_ret r) 0) as [Hz | Hnz]; simpl.
    { split; [left; reflexivity | ].
      split; [discriminate | intros (r' & w' & [= <- <-] & Hpos & _); lia]. }
    destruct (Z.testbit (signaled r) fd) eqn:Hset; simpl.
    + destruct (sys K io w1) as [[n w2] | ]; simpl.
      * split; [right; reflexivity | ].
        split; [intros _; exists r, w1; repeat split;
                (lia || (rewrite ?(FD_ISSET_in_range fd _ Hfd), ?Hset;
                         reflexivity))
               | reflexivity].
      * split; [right; reflexivity | ].
        split; [intros _; exists r, w1; repeat split;
                (lia || (rewrite ?(FD_ISSET_in_range fd _ Hfd), ?Hset;
                         reflexivity))
               | reflexivity].
    + split; [left; reflexivity | ].
      split; [discriminate | ].
      intros (r' & w' & [= <- <-] & _ & Hset').
      rewrite (FD_ISSET_in_range fd _ Hfd), Hset in Hset'.
      discriminate Hset'.
  - split; [left; reflexivity | ].
    split; [discriminate | intros (r' & w' & Hsome & _); discriminate Hsome].
Qed.

(** X2. For a descriptor within the bounds of an [fd_set]
    ([0 <= fd < FD_SETSIZE]), [ipc::write] and [ipc::read] issue one
    [select] and at most one transfer call after it, and the transfer call
    is issued exactly when [select] answered with descriptors reported and
    [fd] in the set it left: never after a failed or timed-out probe. *)
Theorem X2_transfer_only_when_ready (K : Kernel) (w : World K)
        (fd : Z) (data : ptr) (len wait : Z) :
  0 <= fd < FD_SETSIZE ->
  exists (tmo : option timeval) (set : fd_set),
    FD_SET fd FD_ZERO = Some set /\
    let wsel := SysSelect (fd + 1) None (Some set) None tmo in
    let rsel := SysSelect (fd + 1) (Some set) None None tmo in
    (calls_of K (ipc.write fd data len wait) w = [wsel] \/
     calls_of K (ipc.write fd data len wait) w
     = [wsel; SysWrite fd data len]) /\
    (calls_of K (ipc.write fd data len wait) w
     = [wsel; SysWrite fd data len] <->
     exists (r : select_result) (w1 : World K),
       sys K wsel w = Some (r, w1) /\
       0 < sel_ret r /\ FD_ISSET fd (sel_writefds r) = Some true) /\
    (calls_of K (ipc.read fd data len wait) w = [rsel] \/
     calls_of K (ipc.read fd data len wait) w
     = [rsel; SysRead fd data len]) /\
    (calls_of K (ipc.read fd data len wait) w
     = [rsel; SysRead fd data len] <->
     exists (r : select_result) (w1 : World K),
       sys K rsel w = Some (r, w1) /\
       0 < sel_ret r /\ FD_ISSET fd (sel_readfds r) = Some true).
Proof.
  intros Hfd.
  destruct (FD_SET_singleton fd Hfd) as (set & Hset & _ & _).
  eexists; exists set; split; [exact Hset | ]; cbv zeta.
  pose proof (transfer_calls K w fd (fd + 1) None (Some set) None
                (if wait <? 0 then None
                 else Some {| tv_sec := Z.quot wait 1000;
                              tv_usec := Z.rem wait 1000 * 1000 |})
                sel_writefds (SysWrite fd data len) (fun n => n) Hfd)
    as Hw.
  pose proof (transfer_calls K w fd (fd + 1) (Some set) None None
                (if wait <? 0 then None
                 else Some {| tv_sec := Z.quot wait 1000;
                              tv_usec := Z.rem wait 1000 * 1000 |})
                sel_readfds (SysRead fd data len) (fun n => n) Hfd)
    as Hr.
  cbv zeta in Hw, Hr.
  unfold ipc.write, ipc.read, ipc.wait_write, ipc.wait_read.
  rewrite Hset, (nfds_in_int fd Hfd).
  destruct Hw as [Hw1 Hw2]; destruct Hr as [Hr1 Hr2].
  split; [exact Hw1 | ].
  split; [exact Hw2 | ].
  split; [exact Hr1 | exact Hr2].
Qed.

(** Writing to the ready descriptor 4: the [select] on the set holding 4
    alone, then the one [write]. *)
Lemma X2_transfer_only_when_ready_witness :
  exists tmo,
    calls_of ready_kernel (ipc.write 4 0 11 3000) tt
    = [SysSelect 5 None (Some 16) None tmo; SysWrite 4 0 11].
Proof.
  assert (Hfd : 0 <= 4 < FD_SETSIZE) by (unfold FD_SETSIZE; lia).
  destruct (X2_transfer_only_when_ready ready_kernel tt 4 0 11 3000 Hfd)
    as (tmo & set & Hset & Hcases & _).
  injection Hset as <-.
  exists tmo.
  destruct Hcases as [Hone | Htwo]; [discriminate Hone | exact Htwo].
Defined.

(** ** Pipe *)

Lemma answers_all_some (K : Kernel) (c : syscall) (w : World K) :
  answers_all K -> exists r w1, sys K c w = Some (r, w1).
Proof.
  intros Ha; specialize (Ha c w).
  destruct (sys K c w) as [[r w1] | ]; [eauto | contradiction].
Qed.

(** X4. [Pipe::close] calls [::close] only on ends that are open, the
    write end first: in every run each call is a [close] of a
    non-negative stored descriptor, and when the kernel answers, the calls
    are exactly the open write end followed by the open read end. *)
Theorem X4_pipe_close_calls (K : Kernel) (w : World K) (p : Pipe.t) :
  Forall (fun c => exists fd, c = SysClose fd /\ 0 <= fd /\
                              (fd = Pipe.pipe_1 p \/ fd = Pipe.pipe_0 p))
         (calls_of K (Pipe.close p) w) /\
  (answers_all K ->
   calls_of K (Pipe.close p) w
   = ((if 0 <=? Pipe.pipe_1 p then [SysClose (Pipe.pipe_1 p)] else []) ++
      (if 0 <=? Pipe.pipe_0 p then [SysClose (Pipe.pipe_0 p)] else []))%list).
Proof.
  unfold calls_of, Pipe.close, Pipe.close_w, Pipe.close_r.
  rewrite Z.geb_leb.
  destruct (Z.leb_spec 0 (Pipe.pipe_1 p)) as [H1 | H1]; simpl;
    rewrite Z.geb_leb;
    destruct (Z.leb_spec 0 (Pipe.pipe_0 p)) as [H0 | H0]; simpl.
  - split.
    + destruct (sys K (SysClose (Pipe.pipe_1 p)) w) as [[r1 w1] | ]; simpl;
        [destruct (sys K (SysClose (Pipe.pipe_0 p)) w1) as [[r0 w2] | ];
         simpl | ];
        repeat constructor; eauto.
    + intros Ha.
      destruct (answers_all_some K (SysClose (Pipe.pipe_1 p)) w Ha)
        as (r1 & w1 & ->); simpl.
      destruct (answers_all_some K (SysClose (Pipe.pipe_0 p)) w1 Ha)
        as (r0 & w2 & ->); reflexivity.
  - split.
    + destruct (sys K (SysClose (Pipe.pipe_1 p)) w) as [[r1 w1] | ]; simpl;
        repeat constructor; eauto.
    + intros Ha.
      destruct (answers_all_some K (SysClose (Pipe.pipe_1 p)) w Ha)
        as (r1 & w1 & ->); reflexivity.
  - split.
    + destruct (sys K (SysClose (Pipe.pipe_0 p)) w) as [[r0 w2] | ]; simpl;
        repeat constructor; eauto.
    + intros Ha.
      destruct (answers_all_some K (SysClose (Pipe.pipe_0 p)) w Ha)
        as (r0 & w2 & ->); reflexivity.
  - split; [constructor | reflexivity].
Qed.

(** Closing a pipe with the ends 3 and 4 on a kernel that answers: the
    write end 4 is closed, then the read end 3. *)
Lemma X4_pipe_close_calls_witness :
  calls_of failing_kernel
    (Pipe.close {| Pipe.pipe_0 := 3; Pipe.pipe_1 := 4 |}) tt
  = [SysClose 4; SysClose 3].
Proof.
  destruct (X4_pipe_close_calls failing_kernel tt
              {| Pipe.pipe_0 := 3; Pipe.pipe_1 := 4 |}) as [_ Hcalls].
  exact (Hcalls failing_kernel_answers).
Defined.

(** ** Fifo *)

Lemma Fifo_open_state (P : Platform) (K : Kernel) (w : World K)
      f mode b f' t w' :
  run K (Fifo.open f mode) w = (Returned (b, f'), t, w') ->
  Fifo.path_ f' = Fifo.path_ f /\
  (b = true ->
   Fifo.fd_ f < 0 /\ 0 <= ipc.trans_mode mode /\ 0 <= Fifo.fd_ f' /\
   t = [SysOpen (Fifo.path_ f) (ipc.trans_mode mode)] /\
   sys K (SysOpen (Fifo.path_ f) (ipc.trans_mode mode)) w
   = Some (Fifo.fd_ f', w')) /\
  (b = false ->
   (f' = f /\ t = []) \/
   (Fifo.fd_ f < 0 /\ Fifo.fd_ f' = IPC_INVALID_FD)).
Proof.
  unfold Fifo.open; intros H; run_inv H; bools;
    injection H as <- <- <- <-; simpl.
  - split; [reflexivity | ]; split; [discriminate | auto].
  - split; [reflexivity | ]; split; [discriminate | auto].
  - split; [reflexivity | ]; split; [discriminate | ].
    intros _; right; split; [lia | reflexivity].
  - split; [reflexivity | ]; split; [ | discriminate].
    intros _; repeat split; (lia || assumption || reflexivity).
Qed.

(** X5. A [Fifo] holds at most one descriptor.  When [open] returns true,
    the handle was closed before, the mode was accepted by [trans_mode],
    exactly one [::open] of the stored path was issued and its
    non-negative answer is the new descriptor; any further [open] on the
    resulting handle, with whatever mode, returns false without a call and
    leaves the handle as it is. *)
Theorem X5_fifo_open_once (P : Platform) (K : Kernel) (w : World K)
        (f f1 : Fifo.t) (mode : ascii) (t : trace) (w1 : World K) :
  run K (Fifo.open f mode) w = (Returned (true, f1), t, w1) ->
  Fifo.fd_ f < 0 /\
  In mode mode_chars /\
  t = [SysOpen (Fifo.path_ f) (ipc.trans_mode mode)] /\
  sys K (SysOpen (Fifo.path_ f) (ipc.trans_mode mode)) w
  = Some (Fifo.fd_ f1, w1) /\
  0 <= Fifo.fd_ f1 /\
  Fifo.path_ f1 = Fifo.path_ f /\
  (forall K' (w' : World K') mode',
      run K' (Fifo.open f1 mode') w' = (Returned (false, f1), [], w')).
Proof.
  intros Hrun.
  destruct (Fifo_open_state P K w f mode true f1 t w1 Hrun)
    as (Hpath & Htrue & _).
  destruct (Htrue eq_refl) as (Hclosed & Hmode & Hfd & Ht & Hsys).
  repeat apply conj; try assumption.
  - destruct (in_dec ascii_dec mode mode_chars) as [Hin | Hnot];
      [exact Hin | ].
    rewrite (trans_mode_invalid P mode Hnot) in Hmode; lia.
  - intros K' w' mode'; unfold Fifo.open.
    destruct (Z.geb_spec (Fifo.fd_ f1) 0); [reflexivity | lia].
Qed.

(** A fresh [Fifo] opened for reading on the ready kernel holds descriptor
    3; an [open] for writing on it is then refused. *)
Lemma X5_fifo_open_once_witness :
  run ready_kernel
    (Fifo.open (P := linux_glibc)
       {| Fifo.path_ := "/tmp/fifo"; Fifo.fd_ := 3 |} "w") tt
  = (Returned (false, {| Fifo.path_ := "/tmp/fifo"; Fifo.fd_ := 3 |}),
     [], tt).
Proof.
  assert (Hopen :
            run ready_kernel
              (Fifo.open (P := linux_glibc)
                 {| Fifo.path_ := "/tmp/fifo"; Fifo.fd_ := -1 |} "r") tt
            = (Returned (true, {| Fifo.path_ := "/tmp/fifo";
                                  Fifo.fd_ := 3 |}),
               [SysOpen "/tmp/fifo" 0], tt)) by reflexivity.
  destruct (X5_fifo_open_once linux_glibc ready_kernel tt _ _ _ _ _ Hopen)
    as (_ & _ & _ & _ & _ & _ & Hagain).
  exact (Hagain ready_kernel tt "w"%char).
Defined.

(** X6. Every state a [Fifo] reaches from its constructor through [open]
    and [close] keeps the path given at construction, and its descriptor
    is either -1 or non-negative. *)
Theorem X6_fifo_invariant (P : Platform) (path : string) (f : Fifo.t) :
  Fifo_reachable path f ->
  Fifo.path_ f = path /\ (Fifo.fd_ f = -1 \/ 0 <= Fifo.fd_ f).
Proof.
  induction 1 as [mode f Hnew | f mode b f' _ IH Hopen | f f' _ IH Hclose].
  - destruct Hnew as (K & w & t & w' & Hrun).
    apply Fifo_new_state in Hrun; subst f; simpl; auto.
  - destruct Hopen as (K & w & t & w' & Hrun).
    destruct IH as [IHp IHfd].
    destruct (Fifo_open_state P K w f mode b f' t w' Hrun)
      as (Hpath & Htrue & Hfalse).
    split; [congruence | ].
    destruct b.
    + right; apply Htrue; reflexivity.
    + destruct (Hfalse eq_refl) as [[-> _] | [_ Hinv]];
        [exact IHfd | left; exact Hinv].
  - destruct Hclose as (K & w & t & w' & Hrun).
    destruct IH as [IHp IHfd].
    unfold Fifo.close in Hrun; run_inv Hrun; injection Hrun as <- _ _.
    + simpl; auto.
    + auto.
Qed.

(** A [Fifo] constructed on ["/tmp/fifo"], opened and closed again. *)
Lemma X6_fifo_invariant_witness :
  Fifo.path_ {| Fifo.path_ := "/tmp/fifo"; Fifo.fd_ := -1 |}
  = "/tmp/fifo"%string
  /\ (Fifo.fd_ {| Fifo.path_ := "/tmp/fifo"; Fifo.fd_ := -1 |} = -1 \/
      0 <= Fifo.fd_ {| Fifo.path_ := "/tmp/fifo"; Fifo.fd_ := -1 |}).
Proof.
  apply (X6_fifo_invariant linux_glibc).
  apply Fifo_reach_close
    with (f := {| Fifo.path_ := "/tmp/fifo"; Fifo.fd_ := 3 |}).
  - apply Fifo_reach_open
      with (f := {| Fifo.path_ := "/tmp/fifo"; Fifo.fd_ := -1 |})
           (mode := "r"%char) (b := true).
    + apply Fifo_reach_new with (mode := "r"%char).
      exists ready_kernel, tt, [SysMkfifo "/tmp/fifo" 0], tt; reflexivity.
    + exists ready_kernel, tt, [SysOpen "/tmp/fifo" 0], tt; reflexivity.
  - exists ready_kernel, tt, [SysClose 3], tt; reflexivity.
Defined.

(** X7. [Fifo::close] issues exactly one [::close], of the stored
    descriptor, when the handle is open and nothing otherwise; it never
    removes the path.  On the handle it leaves, [open] with an accepted
    mode issues [::open] on the same path again. *)
Theorem X7_fifo_close_reopen (P : Platform) (K : Kernel) (w : World K)
        (f : Fifo.t) :
  calls_of K (Fifo.close f) w
  = (if 0 <=? Fifo.fd_ f then [SysClose (Fifo.fd_ f)] else []) /\
  (forall f' mode K' (w' : World K'),
      reached_by (Fifo.close f) f' ->
      0 <= ipc.trans_mode mode ->
      calls_of K' (Fifo.open f' mode) w'
      = [SysOpen (Fifo.path_ f) (ipc.trans_mode mode)]).
Proof.
  split.
  - unfold calls_of, Fifo.close; rewrite Z.geb_leb.
    destruct (0 <=? Fifo.fd_ f); [ | reflexivity]; simpl.
    destruct (sys K (SysClose (Fifo.fd_ f)) w) as [[r w1] | ]; reflexivity.
  - intros f' mode K' w' (K0 & w0 & t0 & w0' & Hrun) Hmode.
    apply Fifo_close_state in Hrun; destruct Hrun as (Hfd & Hpath & _).
    unfold calls_of, Fifo.open; rewrite Hpath.
    destruct (Z.geb_spec (Fifo.fd_ f') 0); [lia | ].
    destruct (Z.ltb_spec (ipc.trans_mode mode) 0); [lia | simpl].
    destruct (sys K' _ w') as [[r w1] | ]; [ | reflexivity].
    destruct (r <? 0); reflexivity.
Qed.

(** Closing the open handle 3 and opening it again for reading. *)
Lemma X7_fifo_close_reopen_witness :
  calls_of ready_kernel
    (Fifo.open (P := linux_glibc)
       {| Fifo.path_ := "/tmp/fifo"; Fifo.fd_ := -1 |} "r") tt
  = [SysOpen "/tmp/fifo" 0].
Proof.
  destruct (X7_fifo_close_reopen linux_glibc ready_kernel tt
              {| Fifo.path_ := "/tmp/fifo"; Fifo.fd_ := 3 |})
    as [_ Hreopen].
  apply (Hreopen {| Fifo.path_ := "/tmp/fifo"; Fifo.fd_ := -1 |}
           "r"%char ready_kernel tt).
  - exists ready_kernel, tt, [SysClose 3], tt; reflexivity.
  - unfold ipc.trans_mode; simpl; lia.
Defined.

(** ** Message queue, named semaphore and shared memory handles *)

Lemma PosixMsgQueue_new_state (P : Platform) (K : Kernel) (w : World K)
      path mode maxmsg srv q t w' :
  run K (PosixMsgQueue.new path mode maxmsg srv) w = (Returned q, t, w') ->
  0 <= PosixMsgQueue.fd_ q /\ PosixMsgQueue.path_ q = path /\
  PosixMsgQueue.maxmsg_ q = maxmsg /\
  t = [SysMqOpen path (ipc.trans_mode mode) 438
         {| mq_flags := 0; mq_maxmsg := 20;
            mq_msgsize := to_long maxmsg; mq_curmsgs := 0 |}].
Proof.
  unfold PosixMsgQueue.new; intros H; run_inv H; bools.
  injection H as <- <- _; simpl; auto.
Qed.

(** X8. Every state a [PosixMsgQueue] reaches from its constructor through
    [close] and [destroy] keeps the path and the maximum message size given
    at construction, and its descriptor is either -1 or non-negative. *)
Theorem X8_queue_invariant (P : Platform) (path : string) (maxmsg : Z)
        (q : PosixMsgQueue.t) :
  Queue_reachable path maxmsg q ->
  PosixMsgQueue.path_ q = path /\
  PosixMsgQueue.maxmsg_ q = maxmsg /\
  (PosixMsgQueue.fd_ q = -1 \/ 0 <= PosixMsgQueue.fd_ q).
Proof.
  induction 1 as [mode srv q Hnew | q q' _ IH Hc | q q' _ IH Hd].
  - destruct Hnew as (K & w & t & w' & Hrun).
    apply PosixMsgQueue_new_state in Hrun; tauto.
  - destruct Hc as (K & w & t & w' & Hrun).
    destruct IH as (IHp & IHm & IHfd).
    unfold PosixMsgQueue.close in Hrun; run_inv Hrun;
      injection Hrun as <- _ _; simpl; auto.
  - destruct Hd as (K & w & t & w' & Hrun).
    destruct IH as (IHp & IHm & IHfd).
    unfold PosixMsgQueue.destroy, PosixMsgQueue.close in Hrun.
    run_inv Hrun; injection Hrun as <- _ _; simpl; auto.
Qed.

(** The queue of the test program after construction and [destroy]. *)
Lemma X8_queue_invariant_witness :
  PosixMsgQueue.path_
    {| PosixMsgQueue.fd_ := -1; PosixMsgQueue.path_ := "/ipc_test";
       PosixMsgQueue.maxmsg_ := 8192 |} = "/ipc_test"%string /\
  PosixMsgQueue.maxmsg_
    {| PosixMsgQueue.fd_ := -1; PosixMsgQueue.path_ := "/ipc_test";
       PosixMsgQueue.maxmsg_ := 8192 |} = 8192 /\
  (PosixMsgQueue.fd_
     {| PosixMsgQueue.fd_ := -1; PosixMsgQueue.path_ := "/ipc_test";
        PosixMsgQueue.maxmsg_ := 8192 |} = -1 \/
   0 <= PosixMsgQueue.fd_
          {| PosixMsgQueue.fd_ := -1; PosixMsgQueue.path_ := "/ipc_test";
             PosixMsgQueue.maxmsg_ := 8192 |}).
Proof.
  apply (X8_queue_invariant linux_glibc).
  apply Queue_reach_destroy with (q := test_queue).
  - apply Queue_reach_new with (mode := "d"%char) (srv := false).
    exists ready_kernel, tt,
      [SysMqOpen "/ipc_test" 1090 438
         {| mq_flags := 0; mq_maxmsg := 20;
            mq_msgsize := 8192; mq_curmsgs := 0 |}], tt.
    reflexivity.
  - exists ready_kernel, tt, [SysMqClose 3; SysMqUnlink "/ipc_test"], tt.
    reflexivity.
Defined.

(** X9. The size a queue is opened with is the size it receives with.
    When the constructor of [PosixMsgQueue] returns (for [maxmsg] below
    2^63 and whatever [srv] is), it issued exactly one [mq_open], asking
    for a depth of 20 messages of size [maxmsg]; the handle is open; and
    every call that [read] issues on it afterwards is a receive on the
    caller's buffer whose length argument is that same message size. *)
Theorem X9_queue_sizes_agree (P : Platform) (K : Kernel) (w : World K)
        (path : string) (mode : ascii) (maxmsg : Z) (srv : bool)
        (q : PosixMsgQueue.t) (t : trace) (w1 : World K) :
  0 <= maxmsg < 2 ^ 63 ->
  run K (PosixMsgQueue.new path mode maxmsg srv) w = (Returned q, t, w1) ->
  exists attr : mq_attr,
    t = [SysMqOpen path (ipc.trans_mode mode) 438 attr] /\
    mq_maxmsg attr = 20 /\
    mq_msgsize attr = maxmsg /\
    0 <= PosixMsgQueue.fd_ q /\
    (forall K' (w' : World K') data len wait c,
        In c (calls_of K' (PosixMsgQueue.read q data len wait) w') ->
        c = SysMqReceive (PosixMsgQueue.fd_ q) data (mq_msgsize attr) \/
        exists abs,
          c = SysMqTimedReceive (PosixMsgQueue.fd_ q) data
                (mq_msgsize attr) abs).
Proof.
  intros Hm Hrun.
  destruct (PosixMsgQueue_new_state P K w path mode maxmsg srv q t w1 Hrun)
    as (Hfd & _ & Hmax & Ht).
  assert (Hlong : to_long maxmsg = maxmsg)
    by (unfold to_long; rewrite Z.mod_small; lia).
  eexists; split; [exact Ht | ]; simpl.
  split; [reflexivity | ].
  split; [exact Hlong | ].
  split; [exact Hfd | ].
  intros K' w' data len wait c; rewrite Hlong, <- Hmax.
  unfold calls_of, PosixMsgQueue.read.
  destruct (PosixMsgQueue.fd_ q <? 0); [intros [] | ].
  destruct (len >? PosixMsgQueue.maxmsg_ q); [intros [] | ].
  destruct (wait <? 0); simpl.
  - destruct (sys K' _ w') as [[r w2] | ]; simpl;
      (intros [<- | []]; left; reflexivity).
  - destruct (sys K' _ w') as [[r w2] | ]; simpl;
      (intros [<- | []]; right; eexists; reflexivity).
Qed.

(** The queue of the test program: opened with message size 8192, and its
    [read] into an 11-byte buffer receives with length 8192. *)
Lemma X9_queue_sizes_agree_witness :
  exists attr : mq_attr,
    mq_msgsize attr = 8192 /\
    forall c,
      In c (calls_of ready_kernel (PosixMsgQueue.read test_queue 0 11 0) tt)
      -> c = SysMqReceive 3 0 (mq_msgsize attr) \/
         exists abs, c = SysMqTimedReceive 3 0 (mq_msgsize attr) abs.
Proof.
  assert (Hm : 0 <= 8192 < 2 ^ 63) by lia.
  assert (Hnew :
            run ready_kernel
              (PosixMsgQueue.new (P := linux_glibc) "/ipc_test" "d" 8192
                 false) tt
            = (Returned test_queue,
               [SysMqOpen "/ipc_test" 1090 438
                  {| mq_flags := 0; mq_maxmsg := 20;
                     mq_msgsize := 8192; mq_curmsgs := 0 |}], tt))
    by reflexivity.
  destruct (X9_queue_sizes_agree linux_glibc ready_kernel tt "/ipc_test"
              "d" 8192 false test_queue _ tt Hm Hnew)
    as (attr & _ & _ & Hsize & _ & Hread).
  exists attr; split; [exact Hsize | ].
  intros c; exact (Hread ready_kernel tt 0 11 0 c).
Defined.

(** X10. [PosixMsgQueue::destroy] and [NameSem::unlink] always remove the
    stored name: when the kernel answers, [destroy] issues [mq_close] of
    the descriptor if the handle is open and then [mq_unlink] of the path,
    and [unlink] issues [sem_close] of the semaphore if it is open and
    then [sem_unlink] of the name; on a handle that is already closed only
    the removal is issued. *)
Theorem X10_destroy_calls (K : Kernel) :
  answers_all K ->
  (forall (w : World K) (q : PosixMsgQueue.t),
      calls_of K (PosixMsgQueue.destroy q) w
      = ((if 0 <=? PosixMsgQueue.fd_ q
          then [SysMqClose (PosixMsgQueue.fd_ q)] else []) ++
         [SysMqUnlink (PosixMsgQueue.path_ q)])%list) /\
  (forall (w : World K) (s : NameSem.t),
      calls_of K (NameSem.unlink s) w
      = ((if NameSem.sem_ s =? nullptr
          then [] else [SysSemClose (NameSem.sem_ s)]) ++
         [SysSemUnlink (NameSem.name_ s)])%list).
Proof.
  intros Ha; split; intros w x.
  - unfold calls_of, PosixMsgQueue.destroy, PosixMsgQueue.close.
    rewrite Z.geb_leb.
    destruct (0 <=? PosixMsgQueue.fd_ x); simpl.
    + destruct (answers_all_some K (SysMqClose (PosixMsgQueue.fd_ x)) w Ha)
        as (r1 & w1 & ->); simpl.
      destruct (answers_all_some K (SysMqUnlink (PosixMsgQueue.path_ x))
                  w1 Ha) as (r2 & w2 & ->); reflexivity.
    + destruct (answers_all_some K (SysMqUnlink (PosixMsgQueue.path_ x))
                  w Ha) as (r2 & w2 & ->); reflexivity.
  - unfold calls_of, NameSem.unlink, NameSem.close.
    destruct (NameSem.sem_ x =? nullptr); simpl.
    + destruct (answers_all_some K (SysSemUnlink (NameSem.name_ x)) w Ha)
        as (r2 & w2 & ->); reflexivity.
    + destruct (answers_all_some K (SysSemClose (NameSem.sem_ x)) w Ha)
        as (r1 & w1 & ->); simpl.
      destruct (answers_all_some K (SysSemUnlink (NameSem.name_ x)) w1 Ha)
        as (r2 & w2 & ->); reflexivity.
Qed.

(** [mq.destroy()] of the test program: close descriptor 3, then remove
    ["/ipc_test"]. *)
Lemma X10_destroy_calls_witness :
  calls_of failing_kernel (PosixMsgQueue.destroy test_queue) tt
  = [SysMqClose 3; SysMqUnlink "/ipc_test"].
Proof.
  destruct (X10_destroy_calls failing_kernel failing_kernel_answers)
    as [Hq _].
  exact (Hq tt test_queue).
Defined.

Lemma Shm_reachable_state (P : Platform) (name : string)
      (m : PosixShareMem.t) :
  Shm_reachable name m ->
  PosixShareMem.addr_ m = nullptr /\ PosixShareMem.name_ m = name /\
  0 <= PosixShareMem.fd_ m.
Proof.
  induction 1 as [mode len0 m Hnew | m m' _ IH Hu | m m' _ IH Hd].
  - destruct Hnew as (K & w & t & w' & Hrun).
    unfold PosixShareMem.new in Hrun; run_inv Hrun; bools.
    injection Hrun as <- _ _; simpl; auto.
  - destruct Hu as (K & w & t & w' & Hrun).
    apply PosixShareMem_unmap_same in Hrun; subst m'; exact IH.
  - destruct Hd as (K & w & t & w' & Hrun).
    apply PosixShareMem_destroy_same in Hrun; subst m'; exact IH.
Qed.

(** X11. In every state a [PosixShareMem] reaches from its constructor
    through [unmap] and [destroy], [addr] is the null pointer and the
    descriptor of [shm_open] is still the stored, non-negative one:
    [unmap] issues no call, and [destroy] issues only [shm_unlink] of the
    name (nothing for an empty name).  Neither of them closes the
    descriptor. *)
Theorem X11_shm_handle (P : Platform) (name : string)
        (m : PosixShareMem.t) :
  Shm_reachable name m ->
  PosixShareMem.addr m = nullptr /\
  0 <= PosixShareMem.fd_ m /\
  (forall K (w : World K),
      run K (PosixShareMem.unmap m) w = (Returned m, [], w)) /\
  (forall K (w : World K),
      calls_of K (PosixShareMem.destroy m) w
      = match name with
        | EmptyString => []
        | _ => [SysShmUnlink name]
        end) /\
  (forall K (w : World K),
      existsb is_close (calls_of K (PosixShareMem.unmap m) w) = false /\
      existsb is_close (calls_of K (PosixShareMem.destroy m) w) = false).
Proof.
  intros Hreach.
  destruct (Shm_reachable_state P name m Hreach) as (Haddr & Hname & Hfd).
  assert (Hunmap : forall K (w : World K),
             run K (PosixShareMem.unmap m) w = (Returned m, [], w)).
  { intros K w; unfold PosixShareMem.unmap; rewrite Haddr; reflexivity. }
  assert (Hdestroy : forall K (w : World K),
             calls_of K (PosixShareMem.destroy m) w
             = match name with
               | EmptyString => []
               | _ => [SysShmUnlink name]
               end).
  { intros K w; unfold calls_of, PosixShareMem.destroy.
    rewrite run_bind, Hunmap, Hname.
    destruct name as [ | a name']; [reflexivity | simpl].
    destruct (sys K _ w) as [[r w1] | ]; reflexivity. }
  repeat apply conj; try assumption.
  intros K w; split.
  - unfold calls_of; rewrite Hunmap; reflexivity.
  - rewrite Hdestroy; destruct name; reflexivity.
Qed.

(** A segment opened as ["/shm"] on the ready kernel: descriptor 3, no
    mapping, and [destroy] only removes the name. *)
Lemma X11_shm_handle_witness :
  calls_of ready_kernel
    (PosixShareMem.destroy
       {| PosixShareMem.addr_ := nullptr; PosixShareMem.fd_ := 3;
          PosixShareMem.len_ := 0; PosixShareMem.name_ := "/shm" |}) tt
  = [SysShmUnlink "/shm"].
Proof.
  assert (Hreach : Shm_reachable (P := linux_glibc) "/shm"
                     {| PosixShareMem.addr_ := nullptr;
                        PosixShareMem.fd_ := 3;
                        PosixShareMem.len_ := 0;
                        PosixShareMem.name_ := "/shm" |}).
  { apply Shm_reach_new with (mode := "d"%char) (len0 := 0).
    exists ready_kernel, tt, [SysShmOpen "/shm" 1090 438], tt.
    reflexivity. }
  destruct (X11_shm_handle linux_glibc "/shm" _ Hreach)
    as (_ & _ & _ & Hd & _).
  exact (Hd ready_kernel tt).
Defined.

(** ** Counting with [Sem] *)

Section PosixSemKernel.
Variable K : Kernel.
Hypothesis HK : implements_posix_sem K.

Lemma Sem_sem_v_run (s : Sem.t) (w : World K) :
  sem_count (Sem.sem_ s) < SEM_VALUE_MAX ->
  exists w',
    run K (Sem.sem_v s) w
    = (Returned (true, {| Sem.sem_ := sem_add (Sem.sem_ s) 1 |}),
       [SysSemPost (Sem.sem_ s)], w').
Proof.
  intros Hlt.
  assert (Hc : posix_sem (SysSemPost (Sem.sem_ s))
               = Some (Some (0, sem_add (Sem.sem_ s) 1))).
  { simpl; destruct (Z.ltb_spec (sem_count (Sem.sem_ s)) SEM_VALUE_MAX);
      [reflexivity | lia]. }
  destruct (posix_sem_answers K _ w _ HK Hc) as [w' Hsys].
  exists w'; unfold Sem.sem_v; simpl; rewrite Hsys; reflexivity.
Qed.

Lemma Sem_sem_p_positive (s : Sem.t) (w : World K) (block : bool) :
  0 < sem_count (Sem.sem_ s) ->
  exists t w',
    run K (Sem.sem_p s block) w
    = (Returned (true, {| Sem.sem_ := sem_add (Sem.sem_ s) (-1) |}), t, w').
Proof.
  intros Hpos.
  assert (Hgt : (sem_count (Sem.sem_ s) >? 0) = true)
    by (rewrite Z.gtb_ltb; apply Z.ltb_lt; exact Hpos).
  destruct block.
  - assert (Hc : posix_sem (SysSemWait (Sem.sem_ s))
                 = Some (Some (0, sem_add (Sem.sem_ s) (-1))))
      by (simpl; rewrite Hgt; reflexivity).
    destruct (posix_sem_answers K _ w _ HK Hc) as [w' Hsys].
    do 2 eexists; unfold Sem.sem_p; simpl; rewrite Hsys; reflexivity.
  - assert (Hc : posix_sem (SysSemTryWait (Sem.sem_ s))
                 = Some (Some (0, sem_add (Sem.sem_ s) (-1))))
      by (simpl; rewrite Hgt; reflexivity).
    destruct (posix_sem_answers K _ w _ HK Hc) as [w' Hsys].
    do 2 eexists; unfold Sem.sem_p; simpl; rewrite Hsys; reflexivity.
Qed.

Lemma Sem_sem_p_exhausted (s : Sem.t) (w : World K) :
  sem_count (Sem.sem_ s) <= 0 ->
  run K (Sem.sem_p s true) w = (Blocked, [SysSemWait (Sem.sem_ s)], w) /\
  exists w',
    run K (Sem.sem_p s false) w
    = (Returned (false, s), [SysSemTryWait (Sem.sem_ s)], w').
Proof.
  intros Hle.
  assert (Hgt : (sem_count (Sem.sem_ s) >? 0) = false)
    by (rewrite Z.gtb_ltb; apply Z.ltb_ge; exact Hle).
  split.
  - pose proof (HK (SysSemWait (Sem.sem_ s)) w) as Hsys.
    simpl in Hsys; rewrite Hgt in Hsys.
    unfold Sem.sem_p; simpl; rewrite Hsys; reflexivity.
  - assert (Hc : posix_sem (SysSemTryWait (Sem.sem_ s))
                 = Some (Some (-1, Sem.sem_ s)))
      by (simpl; rewrite Hgt; reflexivity).
    destruct (posix_sem_answers K _ w _ HK Hc) as [w' Hsys].
    exists w'; unfold Sem.sem_p; simpl; rewrite Hsys.
    destruct s; reflexivity.
Qed.

Lemma release_n_count (n : nat) :
  forall (s : Sem.t) (w : World K),
    sem_count (Sem.sem_ s) + Z.of_nat n <= SEM_VALUE_MAX ->
    exists s1 w1,
      release_n K n s w = Some (s1, w1) /\
      sem_count (Sem.sem_ s1) = sem_count (Sem.sem_ s) + Z.of_nat n.
Proof.
  induction n as [ | n IH]; intros s w Hle.
  - exists s, w; split; [reflexivity | simpl; lia].
  - destruct (Sem_sem_v_run s w ltac:(lia)) as [w' Hrun].
    cbn [release_n]; rewrite Hrun.
    destruct (IH {| Sem.sem_ := sem_add (Sem.sem_ s) 1 |} w')
      as (s1 & w1 & Hrel & Hcount); [simpl; lia | ].
    exists s1, w1; split; [exact Hrel | ].
    rewrite Hcount; simpl; lia.
Qed.

Lemma acquire_n_count (n : nat) :
  forall (s : Sem.t) (w : World K),
    Z.of_nat n <= sem_count (Sem.sem_ s) ->
    exists s1 w1,
      acquire_n K n s w = Some (s1, w1) /\
      sem_count (Sem.sem_ s1) = sem_count (Sem.sem_ s) - Z.of_nat n.
Proof.
  induction n as [ | n IH]; intros s w Hle.
  - exists s, w; split; [reflexivity | simpl; lia].
  - destruct (Sem_sem_p_positive s w false ltac:(lia)) as (t & w' & Hrun).
    cbn [acquire_n]; rewrite Hrun.
    destruct (IH {| Sem.sem_ := sem_add (Sem.sem_ s) (-1) |} w')
      as (s1 & w1 & Hacq & Hcount); [simpl; lia | ].
    exists s1, w1; split; [exact Hacq | ].
    rewrite Hcount; simpl; lia.
Qed.

Lemma acquire_n_exhausted (n : nat) :
  forall (s : Sem.t) (w : World K),
    0 <= sem_count (Sem.sem_ s) < Z.of_nat n ->
    acquire_n K n s w = None.
Proof.
  induction n as [ | n IH]; intros s w Hc; [simpl in Hc; lia | ].
  cbn [acquire_n].
  destruct (Z.eq_dec (sem_count (Sem.sem_ s)) 0) as [Hz | Hnz].
  - destruct (Sem_sem_p_exhausted s w ltac:(lia)) as [_ [w' Hrun]].
    rewrite Hrun; reflexivity.
  - destruct (Sem_sem_p_positive s w false ltac:(lia)) as (t & w' & Hrun).
    rewrite Hrun; apply IH; simpl; lia.
Qed.

End PosixSemKernel.

(** X12. On a kernel with POSIX semaphores, [Sem::sem_p] on a semaphore
    whose count is positive returns true, blocking or not, and takes one
    unit; on a count of zero the non-blocking call returns false and
    leaves the semaphore as it is, and the blocking call does not
    return. *)
Theorem X12_sem_acquire (K : Kernel) (w : World K) (s : Sem.t) :
  implements_posix_sem K ->
  (0 < sem_count (Sem.sem_ s) ->
   forall block,
   exists t w',
     run K (Sem.sem_p s block) w
     = (Returned (true, {| Sem.sem_ := sem_add (Sem.sem_ s) (-1) |}),
        t, w')) /\
  (sem_count (Sem.sem_ s) <= 0 ->
   result_of K (Sem.sem_p s true) w = Blocked /\
   exists w',
     run K (Sem.sem_p s false) w
     = (Returned (false, s), [SysSemTryWait (Sem.sem_ s)], w')).
Proof.
  intros HK; split.
  - intros Hpos block; apply Sem_sem_p_positive; assumption.
  - intros Hle.
    destruct (Sem_sem_p_exhausted K HK s w Hle) as [Hb Ht].
    split; [unfold result_of; rewrite Hb; reflexivity | exact Ht].
Qed.

(** A blocking acquisition of a semaphore with count 0 on the ready kernel
    does not return. *)
Lemma X12_sem_acquire_witness :
  result_of ready_kernel (Sem.sem_p {| Sem.sem_ := sem_zeroed |} true) tt
  = Blocked.
Proof.
  destruct (X12_sem_acquire ready_kernel tt {| Sem.sem_ := sem_zeroed |}
              ready_kernel_posix_sem) as [_ Hzero].
  destruct (Hzero ltac:(simpl; lia)) as [Hb _].
  exact Hb.
Defined.

(** X13. A [Sem] counts.  On a kernel with POSIX semaphores, after the
    constructor and [k] calls of [sem_v] (all returning true), exactly
    [k + 1] non-blocking [sem_p] calls in a row succeed: the first [k + 1]
    return true and leave the count 0, and a run of [k + 2] fails. *)
Theorem X13_sem_counts (K : Kernel) (w : World K) (shared : bool)
        (k : nat) :
  implements_posix_sem K ->
  Z.of_nat k + 1 <= SEM_VALUE_MAX ->
  exists s0 t0 w0 s1 w1,
    run K (Sem.new shared) w = (Returned s0, t0, w0) /\
    release_n K k s0 w0 = Some (s1, w1) /\
    (exists s2 w2,
        acquire_n K (S k) s1 w1 = Some (s2, w2) /\
        sem_count (Sem.sem_ s2) = 0) /\
    acquire_n K (S (S k)) s1 w1 = None.
Proof.
  intros HK Hk.
  destruct (posix_sem_answers K
              (SysSemInit sem_zeroed (if shared then 1 else 0) 1) w
              (0, {| sem_count := 1;
                     sem_pshared := if shared then 1 else 0 |})
              HK eq_refl) as [w0 H0].
  set (s0 := {| Sem.sem_ := {| sem_count := 1;
                               sem_pshared := if shared then 1 else 0 |} |}).
  destruct (release_n_count K HK k s0 w0) as (s1 & w1 & Hrel & Hc1);
    [change (1 + Z.of_nat k <= SEM_VALUE_MAX); lia | ].
  change (sem_count (Sem.sem_ s0)) with 1 in Hc1.
  destruct (acquire_n_count K HK (S k) s1 w1) as (s2 & w2 & Hacq & Hc2);
    [rewrite Hc1; lia | ].
  exists s0, [SysSemInit sem_zeroed (if shared then 1 else 0) 1], w0, s1, w1.
  split; [unfold Sem.new; simpl; rewrite H0; reflexivity | ].
  split; [exact Hrel | ].
  split.
  - exists s2, w2; split; [exact Hacq | rewrite Hc2, Hc1; lia].
  - apply acquire_n_exhausted; [exact HK | rewrite Hc1; lia].
Qed.

(** Two releases after construction on the ready kernel: three
    acquisitions succeed, a fourth fails. *)
Lemma X13_sem_counts_witness :
  exists s1,
    release_n ready_kernel 2
      {| Sem.sem_ := {| sem_count := 1; sem_pshared := 0 |} |} tt
    = Some (s1, tt) /\
    (exists s2, acquire_n ready_kernel 3 s1 tt = Some (s2, tt)) /\
    acquire_n ready_kernel 4 s1 tt = None.
Proof.
  destruct (X13_sem_counts ready_kernel tt false 2 ready_kernel_posix_sem
              ltac:(unfold SEM_VALUE_MAX; simpl; lia))
    as (s0 & t0 & [] & s1 & [] & Hnew & Hrel & (s2 & [] & Hacq & _) & Hno).
  injection Hnew as <- _.
  exists s1; split; [exact Hrel | ].
  split; [exists s2; exact Hacq | exact Hno].
Defined.

(** ** Blocking mode and the other configuration members *)

Lemma crun_bind (A B : Type) (K : CtlKernel) (p : ctl A) (f : A -> ctl B)
      (w : CWorld K) :
  crun K (cbind p f) w =
  match crun K p w with
  | (Returned a, t, w1) =>
      let '(o, t', w2) := crun K (f a) w1 in (o, (t ++ t')%list, w2)
  | (Thrown e, t, w1) => (Thrown e, t, w1)
  | (Blocked, t, w1) => (Blocked, t, w1)
  | (Undefined, t, w1) => (Undefined, t, w1)
  end.
Proof.
  revert w; induction p as [a | c k IH]; intros w; simpl.
  - destruct (crun K (f a) w) as [[o t] w2]; reflexivity.
  - destruct (csys K c w) as [[r w1] | ]; [ | reflexivity].
    rewrite IH.
    destruct (crun K (k r) w1) as [[[a | e | | ] t] w2]; try reflexivity.
    destruct (crun K (f a) w2) as [[o t'] w3]; reflexivity.
Qed.

(** [if (f()) return true; return false;] returns what [f] returns. *)
Lemma crun_bool_return (K : CtlKernel) (p : ctl bool) (w : CWorld K) :
  crun K (b <~ p ;; if b then CRet true else CRet false) w = crun K p w.
Proof.
  revert w; induction p as [[ | ] | c k IH]; intros w; simpl;
    try reflexivity.
  destruct (csys K c w) as [[r w1] | ]; [ | reflexivity].
  rewrite IH; reflexivity.
Qed.

Lemma nonblock_bits (nb flag : Z) (en : bool) (i : Z) :
  0 <= i ->
  Z.testbit (if en then Z.land flag (Z.lnot nb) else Z.lor flag nb) i
  = if Z.testbit nb i then negb en else Z.testbit flag i.
Proof.
  intros Hi; destruct en.
  - rewrite Z.land_spec, Z.lnot_spec by assumption.
    destruct (Z.testbit nb i), (Z.testbit flag i); reflexivity.
  - rewrite Z.lor_spec.
    destruct (Z.testbit nb i), (Z.testbit flag i); reflexivity.
Qed.

(** X14. [set_fd_block] reads the status flags with [F_GETFL]; when that
    fails it returns false and writes nothing.  Otherwise it issues one
    [F_SETFL] whose flag word has the bits of [O_NONBLOCK] cleared for
    [en = true] and set for [en = false], every other bit as read, and it
    returns true exactly when [F_SETFL] answers 0. *)
Theorem X14_set_fd_block (F : FcntlConsts) (K : CtlKernel) (w : CWorld K)
        (fd : Z) (en : bool) (flag : Z) (w1 : CWorld K) :
  csys K (SysFcntl fd F_GETFL 0) w = Some (flag, w1) ->
  (flag < 0 ->
   crun K (set_fd_block fd en) w
   = (Returned false, [SysFcntl fd F_GETFL 0], w1)) /\
  (0 <= flag ->
   exists newflag,
     (forall i, 0 <= i ->
                Z.testbit newflag i
                = if Z.testbit O_NONBLOCK i then negb en
                  else Z.testbit flag i) /\
     ccalls_of K (set_fd_block fd en) w
     = [SysFcntl fd F_GETFL 0; SysFcntl fd F_SETFL newflag] /\
     (forall (r : Z) (w2 : CWorld K),
         csys K (SysFcntl fd F_SETFL newflag) w1 = Some (r, w2) ->
         crun K (set_fd_block fd en) w
         = (Returned (r =? 0),
            [SysFcntl fd F_GETFL 0; SysFcntl fd F_SETFL newflag], w2))).
Proof.
  intros Hget; unfold ccalls_of, set_fd_block; simpl; rewrite Hget.
  split; intros Hflag.
  - destruct (Z.ltb_spec flag 0); [reflexivity | lia].
  - destruct (Z.ltb_spec flag 0); [lia | ].
    eexists; split; [intros i Hi; apply nonblock_bits; exact Hi | ].
    simpl; split.
    + destruct (csys K (SysFcntl fd F_SETFL _) w1) as [[r w2] | ];
        reflexivity.
    + intros r w2 ->; reflexivity.
Qed.

(** Descriptor 5 with the flags [O_RDWR] on Linux is made non-blocking:
    the word written is [O_RDWR | O_NONBLOCK] = 2050. *)
Lemma X14_set_fd_block_witness :
  crun (plain_ctl_kernel 3 2) (set_fd_block (F := linux_fcntl) 5 false) tt
  = (Returned true, [SysFcntl 5 3 0; SysFcntl 5 4 2050], tt).
Proof.
  destruct (X14_set_fd_block linux_fcntl (plain_ctl_kernel 3 2) tt 5 false
              2 tt eq_refl) as [_ Hok].
  destruct (Hok ltac:(lia)) as (newflag & _ & Hcalls & Hrun).
  injection Hcalls as Hnew.
  rewrite <- Hnew in Hrun.
  exact (Hrun 0 tt eq_refl).
Defined.

Lemma land_lor_lnot (x nb : Z) :
  Z.land (Z.lor x nb) (Z.lnot nb) = Z.land x (Z.lnot nb).
Proof.
  apply Z.bits_inj'; intros i Hi.
  rewrite !Z.land_spec, Z.lor_spec, Z.lnot_spec by assumption.
  destruct (Z.testbit x i), (Z.testbit nb i); reflexivity.
Qed.

Lemma land_lnot_disjoint (x nb : Z) :
  Z.land x nb = 0 -> Z.land x (Z.lnot nb) = x.
Proof.
  intros Hdis; apply Z.bits_inj'; intros i Hi.
  rewrite Z.land_spec, Z.lnot_spec by assumption.
  assert (Hbit : Z.testbit (Z.land x nb) i = false)
    by (rewrite Hdis; apply Z.bits_0).
  rewrite Z.land_spec in Hbit.
  destruct (Z.testbit x i), (Z.testbit nb i);
    (reflexivity || discriminate Hbit).
Qed.

Lemma set_fd_block_kept (F : FcntlConsts) (fd flags : Z) (en : bool) :
  F_GETFL <> F_SETFL ->
  0 <= flags ->
  crun fcntl_kernel (set_fd_block fd en) flags
  = (Returned true,
     [SysFcntl fd F_GETFL 0;
      SysFcntl fd F_SETFL
        (if en then Z.land flags (Z.lnot O_NONBLOCK)
         else Z.lor flags O_NONBLOCK)],
     if en then Z.land flags (Z.lnot O_NONBLOCK)
     else Z.lor flags O_NONBLOCK).
Proof.
  intros Hne Hflags.
  assert (Hset : (F_SETFL =? F_GETFL) = false)
    by (apply Z.eqb_neq; congruence).
  unfold set_fd_block; simpl; rewrite Z.eqb_refl; simpl.
  destruct (Z.ltb_spec flags 0); [lia | simpl].
  rewrite Hset, Z.eqb_refl; reflexivity.
Qed.

(** X15. On a kernel that keeps the status flags it is given, switching a
    blocking descriptor (no bit of [O_NONBLOCK] set) to non-blocking and
    back with [set_fd_block] succeeds both times and leaves the flags
    exactly as they were; and switching to non-blocking twice leaves the
    same flags as switching once. *)
Theorem X15_set_fd_block_round_trip (F : FcntlConsts) (fd flags : Z) :
  F_GETFL <> F_SETFL ->
  0 <= flags ->
  0 <= O_NONBLOCK ->
  Z.land flags O_NONBLOCK = 0 ->
  crun fcntl_kernel
    (b1 <~ set_fd_block fd false ;;
     b2 <~ set_fd_block fd true ;; CRet (b1, b2)) flags
  = (Returned (true, true),
     [SysFcntl fd F_GETFL 0; SysFcntl fd F_SETFL (Z.lor flags O_NONBLOCK);
      SysFcntl fd F_GETFL 0; SysFcntl fd F_SETFL flags],
     flags) /\
  snd (crun fcntl_kernel
         (b1 <~ set_fd_block fd false ;;
          b2 <~ set_fd_block fd false ;; CRet (b1, b2)) flags)
  = snd (crun fcntl_kernel (set_fd_block fd false) flags).
Proof.
  intros Hne Hflags Hnb Hdis.
  assert (Hlor : 0 <= Z.lor flags O_NONBLOCK)
    by (apply Z.lor_nonneg; split; assumption).
  assert (Hback : Z.land (Z.lor flags O_NONBLOCK) (Z.lnot O_NONBLOCK)
                  = flags)
    by (rewrite land_lor_lnot; apply land_lnot_disjoint; exact Hdis).
  split.
  - rewrite crun_bind, (set_fd_block_kept F fd flags false Hne Hflags).
    rewrite crun_bind,
      (set_fd_block_kept F fd (Z.lor flags O_NONBLOCK) true Hne Hlor).
    rewrite Hback; reflexivity.
  - rewrite crun_bind, (set_fd_block_kept F fd flags false Hne Hflags).
    rewrite crun_bind,
      (set_fd_block_kept F fd (Z.lor flags O_NONBLOCK) false Hne Hlor).
    simpl; rewrite <- Z.lor_assoc, Z.lor_diag; reflexivity.
Qed.

(** On Linux, descriptor 5 with the flags [O_RDWR]: after switching to
    non-blocking and back the flags are [O_RDWR] again. *)
Lemma X15_set_fd_block_round_trip_witness :
  crun (fcntl_kernel (F := linux_fcntl))
    (b1 <~ set_fd_block (F := linux_fcntl) 5 false ;;
     b2 <~ set_fd_block (F := linux_fcntl) 5 true ;; CRet (b1, b2)) 2
  = (Returned (true, true),
     [SysFcntl 5 3 0; SysFcntl 5 4 2050; SysFcntl 5 3 0; SysFcntl 5 4 2],
     2).
Proof.
  assert (Hne : @F_GETFL linux_fcntl <> @F_SETFL linux_fcntl)
    by (simpl; discriminate).
  assert (Hflags : 0 <= 2) by lia.
  assert (Hnb : 0 <= @O_NONBLOCK linux_fcntl) by (simpl; lia).
  assert (Hdis : Z.land 2 (@O_NONBLOCK linux_fcntl) = 0) by reflexivity.
  destruct (X15_set_fd_block_round_trip linux_fcntl 5 2 Hne Hflags Hnb Hdis)
    as [Hrun _].
  exact Hrun.
Defined.

Lemma set_fd_block_calls (F : FcntlConsts) (K : CtlKernel) (w : CWorld K)
      (fd : Z) (en : bool) :
  Forall (fun c => exists cmd arg, c = SysFcntl fd cmd arg)
         (ccalls_of K (set_fd_block fd en) w).
Proof.
  unfold ccalls_of, set_fd_block; simpl.
  destruct (csys K (SysFcntl fd F_GETFL 0) w) as [[flag w1] | ]; simpl;
    [ | repeat constructor; eauto].
  destruct (flag <? 0); simpl; [repeat constructor; eauto | ].
  destruct (csys K (SysFcntl fd F_SETFL _) w1) as [[r w2] | ]; simpl;
    repeat constructor; eauto.
Qed.

(** X16. [Pipe::set_block] configures one end only: the read end when it
    is open (then every call is an [fcntl] on the read descriptor and the
    write end is not touched), otherwise the write end when that is open,
    and with both ends closed it returns false without a call.  On the
    chosen end it runs and answers as [set_fd_block]. *)
Theorem X16_pipe_set_block (F : FcntlConsts) (K : CtlKernel)
        (w : CWorld K) (p : Pipe.t) (en : bool) :
  (0 <= Pipe.pipe_0 p ->
   crun K (PipeCtl.set_block p en) w
   = crun K (set_fd_block (Pipe.pipe_0 p) en) w /\
   Forall (fun c => exists cmd arg, c = SysFcntl (Pipe.pipe_0 p) cmd arg)
          (ccalls_of K (PipeCtl.set_block p en) w)) /\
  (Pipe.pipe_0 p < 0 -> 0 <= Pipe.pipe_1 p ->
   crun K (PipeCtl.set_block p en) w
   = crun K (set_fd_block (Pipe.pipe_1 p) en) w) /\
  (Pipe.pipe_0 p < 0 -> Pipe.pipe_1 p < 0 ->
   crun K (PipeCtl.set_block p en) w = (Returned false, [], w)).
Proof.
  unfold PipeCtl.set_block; repeat apply conj.
  - intros H0.
    destruct (Z.geb_spec (Pipe.pipe_0 p) 0); [ | lia].
    assert (Heq : crun K (b <~ set_fd_block (Pipe.pipe_0 p) en ;;
                          if b then CRet true else CRet false) w
                  = crun K (set_fd_block (Pipe.pipe_0 p) en) w)
      by apply crun_bool_return.
    split; [exact Heq | ].
    unfold ccalls_of; rewrite Heq; apply set_fd_block_calls.
  - intros H0 H1.
    destruct (Z.geb_spec (Pipe.pipe_0 p) 0); [lia | ].
    destruct (Z.geb_spec (Pipe.pipe_1 p) 0); [ | lia].
    apply crun_bool_return.
  - intros H0 H1.
    destruct (Z.geb_spec (Pipe.pipe_0 p) 0); [lia | ].
    destruct (Z.geb_spec (Pipe.pipe_1 p) 0); [lia | reflexivity].
Qed.

(** A pipe with the ends 3 and 4 is made non-blocking: only descriptor 3
    is configured. *)
Lemma X16_pipe_set_block_witness :
  crun (plain_ctl_kernel 3 0)
    (PipeCtl.set_block (F := linux_fcntl)
       {| Pipe.pipe_0 := 3; Pipe.pipe_1 := 4 |} false) tt
  = (Returned true, [SysFcntl 3 3 0; SysFcntl 3 4 2048], tt).
Proof.
  destruct (X16_pipe_set_block linux_fcntl (plain_ctl_kernel 3 0) tt
              {| Pipe.pipe_0 := 3; Pipe.pipe_1 := 4 |} false)
    as [Hread _].
  destruct (Hread ltac:(simpl; lia)) as [Hrun _].
  rewrite Hrun; reflexivity.
Defined.

Lemma guarded_first_call (K : Kernel) (w : World K) (fd : Z)
      (data : ptr) (len wait : Z) :
  0 <= fd < FD_SETSIZE ->
  exists (set : fd_set),
    FD_SET fd FD_ZERO = Some set /\
    (exists tmo rest,
        calls_of K (ipc.write fd data len wait) w
        = SysSelect (fd + 1) None (Some set) None tmo :: rest) /\
    (exists tmo rest,
        calls_of K (ipc.read fd data len wait) w
        = SysSelect (fd + 1) (Some set) None None tmo :: rest).
Proof.
  intros Hfd.
  destruct (FD_SET_singleton fd Hfd) as (set & Hset & _ & _).
  exists set; split; [exact Hset | ].
  pose proof (transfer_calls K w fd (fd + 1) None (Some set) None
                (if wait <? 0 then None
                 else Some {| tv_sec := Z.quot wait 1000;
                              tv_usec := Z.rem wait 1000 * 1000 |})
                sel_writefds (SysWrite fd data len) (fun n => n) Hfd)
    as [Hw _].
  pose proof (transfer_calls K w fd (fd + 1) (Some set) None None
                (if wait <? 0 then None
                 else Some {| tv_sec := Z.quot wait 1000;
                              tv_usec := Z.rem wait 1000 * 1000 |})
                sel_readfds (SysRead fd data len) (fun n => n) Hfd)
    as [Hr _].
  cbv zeta in Hw, Hr.
  unfold ipc.write, ipc.read, ipc.wait_write, ipc.wait_read.
  rewrite Hset, (nfds_in_int fd Hfd).
  split.
  - destruct Hw as [Hw | Hw]; do 2 eexists; exact Hw.
  - destruct Hr as [Hr | Hr]; do 2 eexists; exact Hr.
Qed.

(** X3. Half-closing a [Pipe] leaves the other end in service.  After
    [close_r] on a pipe whose write descriptor is open and within the
    bounds of an [fd_set], the read descriptor is -1 and the write
    descriptor is the one stored before; [write] is not refused by the
    wrapper: in every kernel and world its first call is the [select] on
    the write descriptor; [set_size] returns true; and [set_block] now
    configures the write end, as [set_fd_block] on it.  After [close_w] on
    a pipe whose read descriptor is open and within the bounds, the same
    holds for the read end and [read]. *)
Theorem X3_pipe_half_closed (F : FcntlConsts) (p p' : Pipe.t) :
  (reached_by (Pipe.close_r p) p' ->
   0 <= Pipe.pipe_1 p < FD_SETSIZE ->
   Pipe.read_fd p' = IPC_INVALID_FD /\
   Pipe.write_fd p' = Pipe.pipe_1 p /\
   (forall K (w : World K) data len wait,
     exists set tmo rest,
       FD_SET (Pipe.pipe_1 p) FD_ZERO = Some set /\
       calls_of K (Pipe.write p' data len wait) w
       = SysSelect (Pipe.pipe_1 p + 1) None (Some set) None tmo :: rest) /\
   (forall size, PipeCtl.set_size p' size = true) /\
   (forall K (w : CWorld K) en,
       crun K (PipeCtl.set_block p' en) w
       = crun K (set_fd_block (Pipe.pipe_1 p) en) w)) /\
  (reached_by (Pipe.close_w p) p' ->
   0 <= Pipe.pipe_0 p < FD_SETSIZE ->
   Pipe.write_fd p' = IPC_INVALID_FD /\
   Pipe.read_fd p' = Pipe.pipe_0 p /\
   (forall K (w : World K) data len wait,
     exists set tmo rest,
       FD_SET (Pipe.pipe_0 p) FD_ZERO = Some set /\
       calls_of K (Pipe.read p' data len wait) w
       = SysSelect (Pipe.pipe_0 p + 1) (Some set) None None tmo :: rest) /\
   (forall size, PipeCtl.set_size p' size = true) /\
   (forall K (w : CWorld K) en,
       crun K (PipeCtl.set_block p' en) w
       = crun K (set_fd_block (Pipe.pipe_0 p) en) w)).
Proof.
  split; intros (K0 & w0 & t0 & w0' & Hrun) Hfd.
  - apply Pipe_close_r_state in Hrun; subst p'.
    split; [reflexivity | ]; split; [reflexivity | ].
    split; [ | split].
    + intros K w data len wait.
      destruct (guarded_first_call K w (Pipe.pipe_1 p) data len wait Hfd)
        as (set & Hset & (tmo & rest & Hw) & _).
      exists set, tmo, rest; split; [exact Hset | ].
      unfold Pipe.write; simpl.
      destruct (Z.ltb_spec (Pipe.pipe_1 p) 0); [lia | exact Hw].
    + intros size; unfold PipeCtl.set_size; simpl.
      destruct (Z.ltb_spec (Pipe.pipe_1 p) 0); [lia | reflexivity].
    + intros K w en; unfold PipeCtl.set_block.
      cbn [Pipe.pipe_0 Pipe.pipe_1].
      change (IPC_INVALID_FD >=? 0) with false; cbv iota.
      destruct (Z.geb_spec (Pipe.pipe_1 p) 0); [ | lia].
      apply crun_bool_return.
  - apply Pipe_close_w_state in Hrun; subst p'.
    split; [reflexivity | ]; split; [reflexivity | ].
    split; [ | split].
    + intros K w data len wait.
      destruct (guarded_first_call K w (Pipe.pipe_0 p) data len wait Hfd)
        as (set & Hset & _ & (tmo & rest & Hr)).
      exists set, tmo, rest; split; [exact Hset | ].
      unfold Pipe.read; simpl.
      destruct (Z.ltb_spec (Pipe.pipe_0 p) 0); [lia | exact Hr].
    + intros size; unfold PipeCtl.set_size; simpl.
      destruct (Z.ltb_spec (Pipe.pipe_0 p) 0); [lia | reflexivity].
    + intros K w en; unfold PipeCtl.set_block.
      cbn [Pipe.pipe_0 Pipe.pipe_1].
      destruct (Z.geb_spec (Pipe.pipe_0 p) 0); [ | lia].
      apply crun_bool_return.
Qed.

(** A pipe with the ends 3 and 4 after [close_r]: making it non-blocking
    now configures descriptor 4. *)
Lemma X3_pipe_half_closed_witness :
  crun (plain_ctl_kernel 3 0)
    (PipeCtl.set_block (F := linux_fcntl)
       {| Pipe.pipe_0 := -1; Pipe.pipe_1 := 4 |} false) tt
  = (Returned true, [SysFcntl 4 3 0; SysFcntl 4 4 2048], tt).
Proof.
  destruct (X3_pipe_half_closed linux_fcntl
              {| Pipe.pipe_0 := 3; Pipe.pipe_1 := 4 |}
              {| Pipe.pipe_0 := -1; Pipe.pipe_1 := 4 |}) as [Hr _].
  assert (Hreach : reached_by
                     (Pipe.close_r {| Pipe.pipe_0 := 3; Pipe.pipe_1 := 4 |})
                     {| Pipe.pipe_0 := -1; Pipe.pipe_1 := 4 |})
    by (exists ready_kernel, tt, [SysClose 3], tt; reflexivity).
  assert (Hfd : 0 <= 4 < FD_SETSIZE) by (unfold FD_SETSIZE; lia).
  destruct (Hr Hreach Hfd) as (_ & _ & _ & _ & Hblock).
  rewrite (Hblock (plain_ctl_kernel 3 0) tt false); reflexivity.
Defined.

Lemma NameSem_unlink_state (K : Kernel) (w : World K) s s1 t w' :
  run K (NameSem.unlink s) w = (Returned s1, t, w') ->
  NameSem.sem_ s1 = nullptr /\ NameSem.name_ s1 = NameSem.name_ s.
Proof.
  unfold NameSem.unlink; rewrite run_bind; intros Hrun.
  destruct (run K (NameSem.close s) w) as [[[s' | e | | ] t0] w0] eqn:Hc;
    try discriminate Hrun.
  apply NameSem_close_state in Hc.
  run_inv Hrun; injection Hrun as <- _ _; exact Hc.
Qed.

(** X17. On a closed handle the configuration members refuse without a
    call: after [close] or [destroy], [PosixMsgQueue::set_block] and
    [notify] return false; after [close] or [unlink], [NameSem::sem_p] and
    [sem_v] return false and [value] returns -1. *)
Theorem X17_closed_handle_config (F : FcntlConsts) :
  (forall q q',
      reached_by (PosixMsgQueue.close q) q' \/
      reached_by (PosixMsgQueue.destroy q) q' ->
      forall K (w : CWorld K) en notification,
        crun K (PosixMsgQueueCtl.set_block q' en) w
        = (Returned false, [], w) /\
        crun K (PosixMsgQueueCtl.notify q' notification) w
        = (Returned false, [], w)) /\
  (forall s s',
      reached_by (NameSem.close s) s' \/
      reached_by (NameSem.unlink s) s' ->
      forall K (w : CWorld K) block,
        crun K (NameSemCtl.sem_p s' block) w = (Returned false, [], w) /\
        crun K (NameSemCtl.sem_v s') w = (Returned false, [], w) /\
        crun K (NameSemCtl.value s') w = (Returned (-1), [], w)).
Proof.
  split.
  - intros q q' Hreach K w en notification.
    assert (Hfd : PosixMsgQueue.fd_ q' < 0).
    { destruct Hreach as [(K0 & w0 & t0 & w0' & Hrun)
                         | (K0 & w0 & t0 & w0' & Hrun)].
      - apply PosixMsgQueue_close_state in Hrun; tauto.
      - apply PosixMsgQueue_destroy_state in Hrun; tauto. }
    apply Z.ltb_lt in Hfd.
    unfold PosixMsgQueueCtl.set_block, PosixMsgQueueCtl.notify.
    rewrite Hfd; split; reflexivity.
  - intros s s' Hreach K w block.
    assert (Hnull : NameSem.sem_ s' = nullptr).
    { destruct Hreach as [(K0 & w0 & t0 & w0' & Hrun)
                         | (K0 & w0 & t0 & w0' & Hrun)].
      - apply NameSem_close_state in Hrun; tauto.
      - apply NameSem_unlink_state in Hrun; tauto. }
    unfold NameSemCtl.sem_p, NameSemCtl.sem_v, NameSemCtl.value.
    rewrite Hnull; repeat split; reflexivity.
Qed.

(** A named semaphore that was closed: a blocking [sem_p] returns false
    at once. *)
Lemma X17_closed_handle_config_witness :
  crun (plain_ctl_kernel 3 0)
    (NameSemCtl.sem_p {| NameSem.sem_ := nullptr; NameSem.name_ := "/s" |}
       true) tt
  = (Returned false, [], tt).
Proof.
  destruct (X17_closed_handle_config linux_fcntl) as [_ Hsem].
  assert (Hreach :
            reached_by
              (NameSem.close {| NameSem.sem_ := 4096;
                                NameSem.name_ := "/s" |})
              {| NameSem.sem_ := nullptr; NameSem.name_ := "/s" |})
    by (exists ready_kernel, tt, [SysSemClose 4096], tt; reflexivity).
  destruct (Hsem _ _ (or_introl Hreach) (plain_ctl_kernel 3 0) tt true)
    as [Hp _].
  exact Hp.
Defined.

(** X18. [Fifo::set_block] has no test of the handle: on a [Fifo] that was
    constructed and not opened, or that was open and has been closed, it
    still calls [fcntl] with [F_GETFL] on descriptor -1, and it returns
    false when that call fails. *)
Theorem X18_fifo_set_block_unguarded (P : Platform) (F : FcntlConsts)
        (f : Fifo.t) :
  (exists path mode, reached_by (Fifo.new path mode) f) \/
  (exists f0, 0 <= Fifo.fd_ f0 /\ reached_by (Fifo.close f0) f) ->
  forall K (w : CWorld K) en,
    (exists rest,
        ccalls_of K (FifoCtl.set_block f en) w
        = SysFcntl (-1) F_GETFL 0 :: rest) /\
    (forall (r : Z) (w1 : CWorld K),
        csys K (SysFcntl (-1) F_GETFL 0) w = Some (r, w1) ->
        r < 0 ->
        crun K (FifoCtl.set_block f en) w
        = (Returned false, [SysFcntl (-1) F_GETFL 0], w1)).
Proof.
  intros Hreach K w en.
  assert (Hfd : Fifo.fd_ f = -1).
  { destruct Hreach as [(path & mode & K0 & w0 & t0 & w0' & Hrun)
                       | (f0 & Hopen & K0 & w0 & t0 & w0' & Hrun)].
    - apply Fifo_new_state in Hrun; subst f; reflexivity.
    - unfold Fifo.close in Hrun; run_inv Hrun; bools; [ | lia].
      injection Hrun as <- _ _; reflexivity. }
  unfold FifoCtl.set_block; rewrite Hfd.
  unfold ccalls_of; rewrite crun_bool_return.
  unfold set_fd_block; simpl.
  destruct (csys K (SysFcntl (-1) F_GETFL 0) w) as [[r w1] | ]; simpl.
  - split.
    + destruct (r <? 0); simpl; [eexists; reflexivity | ].
      destruct (csys K _ w1) as [[r2 w2] | ]; eexists; reflexivity.
    + intros r' w1' [= <- <-] Hneg.
      destruct (Z.ltb_spec r 0); [reflexivity | lia].
  - split; [eexists; reflexivity | discriminate].
Qed.

(** A [Fifo] constructed on the ready kernel and never opened: [set_block]
    asks for the flags of descriptor -1. *)
Lemma X18_fifo_set_block_unguarded_witness :
  exists rest,
    ccalls_of (plain_ctl_kernel 3 (-1))
      (FifoCtl.set_block (F := linux_fcntl)
         {| Fifo.path_ := "/tmp/fifo"; Fifo.fd_ := -1 |} true) tt
    = SysFcntl (-1) 3 0 :: rest.
Proof.
  assert (Hreach :
            (exists path mode,
                reached_by (Fifo.new (P := linux_glibc) path mode)
                  {| Fifo.path_ := "/tmp/fifo"; Fifo.fd_ := -1 |}) \/
            (exists f0, 0 <= Fifo.fd_ f0 /\
                        reached_by (Fifo.close f0)
                          {| Fifo.path_ := "/tmp/fifo"; Fifo.fd_ := -1 |})).
  { left; exists "/tmp/fifo"%string, "r"%char.
    exists ready_kernel, tt, [SysMkfifo "/tmp/fifo" 0], tt; reflexivity. }
  destruct (X18_fifo_set_block_unguarded linux_glibc linux_fcntl _ Hreach
              (plain_ctl_kernel 3 (-1)) tt true) as [Hcalls _].
  exact Hcalls.
Defined.

(** X19. On an open queue, [PosixMsgQueue::set_block] reads the attributes
    with [mq_getattr]; when that fails it returns false and writes
    nothing.  Otherwise it issues one [mq_setattr] with the attributes as
    read except [mq_flags], which is 0 for [en = true] and [O_NONBLOCK]
    for [en = false], and returns true exactly when [mq_setattr] answers
    0. *)
Theorem X19_queue_set_block (F : FcntlConsts) (K : CtlKernel)
        (w : CWorld K) (q : PosixMsgQueue.t) (en : bool)
        (ret : Z) (attr : mq_attr) (w1 : CWorld K) :
  0 <= PosixMsgQueue.fd_ q ->
  csys K (SysMqGetattr (PosixMsgQueue.fd_ q)) w = Some ((ret, attr), w1) ->
  (ret < 0 ->
   crun K (PosixMsgQueueCtl.set_block q en) w
   = (Returned false, [SysMqGetattr (PosixMsgQueue.fd_ q)], w1)) /\
  (0 <= ret ->
   exists attr',
     mq_flags attr' = (if en then 0 else O_NONBLOCK) /\
     mq_maxmsg attr' = mq_maxmsg attr /\
     mq_msgsize attr' = mq_msgsize attr /\
     mq_curmsgs attr' = mq_curmsgs attr /\
     ccalls_of K (PosixMsgQueueCtl.set_block q en) w
     = [SysMqGetattr (PosixMsgQueue.fd_ q);
        SysMqSetattr (PosixMsgQueue.fd_ q) attr'] /\
     (forall (r : Z) (w2 : CWorld K),
         csys K (SysMqSetattr (PosixMsgQueue.fd_ q) attr') w1
         = Some (r, w2) ->
         crun K (PosixMsgQueueCtl.set_block q en) w
         = (Returned (0 =? r),
            [SysMqGetattr (PosixMsgQueue.fd_ q);
             SysMqSetattr (PosixMsgQueue.fd_ q) attr'], w2))).
Proof.
  intros Hfd Hget; unfold ccalls_of, PosixMsgQueueCtl.set_block.
  destruct (Z.ltb_spec (PosixMsgQueue.fd_ q) 0); [lia | ].
  simpl; rewrite Hget; split; intros Hret.
  - destruct (Z.ltb_spec ret 0); [reflexivity | lia].
  - destruct (Z.ltb_spec ret 0); [lia | ].
    exists {| mq_flags := if en then 0 else O_NONBLOCK;
              mq_maxmsg := mq_maxmsg attr;
              mq_msgsize := mq_msgsize attr;
              mq_curmsgs := mq_curmsgs attr |}.
    repeat apply conj; try reflexivity; simpl.
    + destruct (csys K (SysMqSetattr _ _) w1) as [[r w2] | ]; reflexivity.
    + intros r w2 ->; reflexivity.
Qed.

(** The test queue is made non-blocking on Linux: the attributes read
    (depth 20, size 8192) are written back with [mq_flags] 2048. *)
Lemma X19_queue_set_block_witness :
  crun (plain_ctl_kernel 3 0)
    (PosixMsgQueueCtl.set_block (F := linux_fcntl) test_queue false) tt
  = (Returned true,
     [SysMqGetattr 3;
      SysMqSetattr 3 {| mq_flags := 2048; mq_maxmsg := 20;
                        mq_msgsize := 8192; mq_curmsgs := 0 |}], tt).
Proof.
  assert (Hfd : 0 <= PosixMsgQueue.fd_ test_queue) by (simpl; lia).
  destruct (X19_queue_set_block linux_fcntl (plain_ctl_kernel 3 0) tt
              test_queue false 0
              {| mq_flags := 0; mq_maxmsg := 20;
                 mq_msgsize := 8192; mq_curmsgs := 0 |} tt Hfd eq_refl)
    as [_ Hok].
  destruct (Hok ltac:(lia)) as (attr' & _ & _ & _ & _ & Hcalls & Hrun).
  injection Hcalls as Hattr.
  rewrite <- Hattr in Hrun.
  exact (Hrun 0 tt eq_refl).
Defined.

(** X20. On a platform where [SEM_FAILED] is the null pointer, a
    [NameSem] that its constructor returned holds a non-null semaphore and
    the name; the constructor issued exactly one [sem_open], with
    [O_CREAT | O_EXCL] for [srv = true] and [O_CREAT] otherwise, mode 0666
    and the initial count 1; and [close] on it issues exactly one
    [sem_close] of that semaphore. *)
Theorem X20_named_sem_open_close (P : Platform) (K : Kernel) (w : World K)
        (name : string) (srv : bool) (s : NameSem.t) (t : trace)
        (w1 : World K) :
  SEM_FAILED = nullptr ->
  run K (NameSem.new name srv) w = (Returned s, t, w1) ->
  NameSem.sem_ s <> nullptr /\
  NameSem.name_ s = name /\
  t = [SysSemOpen name (if srv then Z.lor O_CREAT O_EXCL else O_CREAT)
         438 1] /\
  (forall K' (w' : World K'),
      calls_of K' (NameSem.close s) w' = [SysSemClose (NameSem.sem_ s)]).
Proof.
  intros Hfailed Hrun; unfold NameSem.new in Hrun; simpl in Hrun.
  set (flags := if srv then Z.lor O_CREAT O_EXCL else O_CREAT) in *.
  destruct (sys K (SysSemOpen name flags 438 1) w) as [[r w0] | ];
    [ | discriminate Hrun].
  destruct (Z.eqb_spec SEM_FAILED r) as [Heq | Hne];
    [discriminate Hrun | ].
  injection Hrun as <- <- _; simpl.
  assert (Hnn : r <> nullptr) by congruence.
  repeat apply conj; try reflexivity; try assumption.
  intros K' w'; unfold calls_of, NameSem.close; simpl.
  destruct (Z.eqb_spec r nullptr); [contradiction | simpl].
  destruct (sys K' (SysSemClose r) w') as [[r' w2] | ]; reflexivity.
Qed.

(** A client opens ["/s"] on Linux and the ready kernel: the semaphore at
    4096 is closed by one [sem_close]. *)
Lemma X20_named_sem_open_close_witness :
  calls_of ready_kernel
    (NameSem.close {| NameSem.sem_ := 4096; NameSem.name_ := "/s" |}) tt
  = [SysSemClose 4096].
Proof.
  assert (Hnew :
            run ready_kernel (NameSem.new (P := linux_glibc) "/s" false) tt
            = (Returned {| NameSem.sem_ := 4096; NameSem.name_ := "/s" |},
               [SysSemOpen "/s" 64 438 1], tt)) by reflexivity.
  destruct (X20_named_sem_open_close linux_glibc ready_kernel tt "/s" false
              _ _ tt eq_refl Hnew) as (_ & _ & _ & Hclose).
  exact (Hclose ready_kernel tt).
Defined.
